(** * Cache-aside controllers of the parking-lot back end

    A shallow embedding of [vehicle.controller.ts] and
    [section.controller.ts]: the two NestJS controllers that put a Redis
    read-through cache in front of the vehicle and section services, and
    that carry the [@Roles] annotations read by the role guard.

    Handlers are [async] methods.  They are embedded in a state-and-exception
    monad over a [World] that holds the Redis key space, the record store
    behind the services, a clock, and a journal of the collaborator calls
    made so far. *)

From Stdlib Require Import Ascii String.
From stdpp Require Import gmap strings list fin_maps pretty.

Local Open Scope Z_scope.

(** ** JavaScript values at the controller boundary *)

(** A header, a query parameter or a Redis reply is a string or is missing
    ([undefined] / [null]).  Only a present, non-empty string is truthy. *)
Definition truthy (s : option string) : bool :=
  match s with
  | Some (String _ _) => true
  | Some EmptyString => false
  | None => false
  end.

(** [`${n}`] for a number [n] produced by [ParseIntPipe].  The pipe only
    lets integers through.  A JavaScript number is a double: up to
    [2^53 - 1] in absolute value (the safe integers, [safe_integer] below)
    the parsed number is the integer itself and prints in plain decimal
    with a leading minus sign, which is what this function gives.  Beyond
    that range the parsed number is rounded, and from [1e21] on it prints
    with an exponent; the embedding does not cover those renderings, so
    every statement about the digits of a key is made for safe integers
    only. *)
Definition Number_toString (n : Z) : string := pretty n.

(** [UserInterface], the descriptor that [@User()] pulls off the request. *)
Record UserInterface := { id : Z; role : string }.

(** Request bodies, after the [@ApiBody] schemas of the controllers. *)
Record CreateVehicleDto := { plate : string; type : option string }.
Record CreateSectionDto := { name : string; capacity : Z }.
Record UpdateSectionDto :=
  { new_name : option string;
    new_capacity : option Z;
    privilegedTo : option (list Z) }.

(** ** Endpoints *)

(** One constructor per controller method; the same names identify the
    service method each of them delegates to. *)
Inductive Endpoint :=
| Vehicle_getAll | Vehicle_getById | Vehicle_create | Vehicle_update
| Vehicle_delete
| Section_getAll | Section_getById | Section_getReservedSlots
| Section_create | Section_update | Section_delete | Section_report.

#[global] Instance Endpoint_eq_dec : EqDecision Endpoint.
Proof. solve_decision. Defined.

Inductive Resource := Vehicles | Sections.
Inductive Action := ReadAction | CreateAction | UpdateAction | DeleteAction.

#[global] Instance Action_eq_dec : EqDecision Action.
Proof. solve_decision. Defined.

Definition resource_of (e : Endpoint) : Resource :=
  match e with
  | Vehicle_getAll | Vehicle_getById | Vehicle_create | Vehicle_update
  | Vehicle_delete => Vehicles
  | _ => Sections
  end.

Definition action_of (e : Endpoint) : Action :=
  match e with
  | Vehicle_getAll | Vehicle_getById
  | Section_getAll | Section_getById | Section_getReservedSlots
  | Section_report => ReadAction
  | Vehicle_create | Section_create => CreateAction
  | Vehicle_update | Section_update => UpdateAction
  | Vehicle_delete | Section_delete => DeleteAction
  end.

(** The [@Roles(...)] annotation of every controller method. *)
Definition Roles (e : Endpoint) : list string :=
  match e with
  | Vehicle_getAll => ["ADMIN"; "SECURITY"]
  | Vehicle_getById => ["ADMIN"; "SECURITY"]
  | Vehicle_create => ["ADMIN"; "SECURITY"]
  | Vehicle_update => ["ADMIN"]
  | Vehicle_delete => ["ADMIN"]
  | Section_getAll => ["ADMIN"; "SECURITY"]
  | Section_getById => ["ADMIN"; "SECURITY"]
  | Section_getReservedSlots => ["ADMIN"; "SECURITY"]
  | Section_create => ["ADMIN"]
  | Section_update => ["ADMIN"]
  | Section_delete => ["ADMIN"]
  | Section_report => ["ADMIN"; "SECURITY"]
  end.

(** Modelled from the spec: [RolesGuard] ([src/guards/role.guard.ts]) is not
    among the sources.  The role policy is a pure gate in front of every
    handler that denies by default; the guard lets a caller through exactly
    when the caller's role is one of those the handler's [@Roles]
    annotation lists. *)
Definition RolesGuard_canActivate (roles : list string) (user : UserInterface)
  : bool :=
  bool_decide (role user ∈ roles).

(** The decision of the role policy for a role and an endpoint. *)
Definition allowed (r : string) (e : Endpoint) : bool :=
  RolesGuard_canActivate (Roles e) {| id := 0; role := r |}.

(** ** The world a handler runs in *)

Inductive Exception :=
| RedisError                    (* a rejected ioredis command *)
| SyntaxError                   (* [JSON.parse] on malformed text *)
| HttpException (status : Z).   (* raised by a service or by the guard *)

#[global] Instance Exception_eq_dec : EqDecision Exception.
Proof. solve_decision. Defined.

Inductive Completion (A : Type) :=
| Return (a : A)
| Throw (e : Exception).
Arguments Return {A} a.
Arguments Throw {A} e.

(** A Redis string key with the absolute time at which it expires. *)
Record Entry := { value : string; expires_at : Z }.

Inductive Event :=
| RedisGet (key : string)
| RedisSet (key value : string) (ex : Z)
| ServiceCall (method : Endpoint).

(** [outages] scripts the transport: each Redis command consumes the head
    of the list and is rejected when it is [true]; once the script is
    exhausted every command goes through. *)
Record World (Store : Type) := {
  redis : gmap string Entry;
  clock : Z;
  outages : list bool;
  store : Store;
  journal : list Event
}.
Arguments redis {Store} w.
Arguments clock {Store} w.
Arguments outages {Store} w.
Arguments store {Store} w.
Arguments journal {Store} w.

Definition Async (Store A : Type) : Type :=
  World Store → Completion A * World Store.

#[global] Instance Async_ret {Store} : MRet (Async Store) :=
  λ A a w, (Return a, w).

#[global] Instance Async_bind {Store} : MBind (Async Store) :=
  λ A B k m w,
    match m w with
    | (Return a, w') => k a w'
    | (Throw e, w') => (Throw e, w')
    end.

Definition throw {Store A} (e : Exception) : Async Store A :=
  λ w, (Throw e, w).

Section World.
Context {Store : Type}.

Definition record (ev : Event) (w : World Store) : World Store :=
  {| redis := redis w; clock := clock w; outages := outages w;
     store := store w; journal := journal w ++ [ev] |}.

Definition rejected (w : World Store) : bool :=
  match outages w with
  | b :: _ => b
  | [] => false
  end.

Definition consume (w : World Store) : World Store :=
  {| redis := redis w; clock := clock w; outages := tail (outages w);
     store := store w; journal := journal w |}.

(** The value Redis holds for [key] right now, if the key has not
    expired. *)
Definition live (w : World Store) (key : string) : option string :=
  match redis w !! key with
  | Some e => if bool_decide (clock w < expires_at e) then Some (value e)
              else None
  | None => None
  end.

(** [redis.get(key)] *)
Definition redis_get (key : string) : Async Store (option string) :=
  λ w,
    let w' := record (RedisGet key) (consume w) in
    if rejected w then (Throw RedisError, w')
    else (Return (live w key), w').

(** The key space after a [SET key value EX ex] that went through. *)
Definition put (key value : string) (ex : Z) (w : World Store) : World Store :=
  {| redis := <[key := {| value := value; expires_at := clock w + ex |}]>
                (redis w);
     clock := clock w; outages := outages w;
     store := store w; journal := journal w |}.

(** [redis.set(key, value, "EX", ex)] *)
Definition redis_set (key value : string) (ex : Z) : Async Store unit :=
  λ w,
    let w' := record (RedisSet key value ex) (consume w) in
    if rejected w then (Throw RedisError, w')
    else (Return (), put key value ex w').

(** The world after a service method ran and left the store as [s]. *)
Definition called (method : Endpoint) (s : Store) (w : World Store)
  : World Store :=
  {| redis := redis w; clock := clock w; outages := outages w;
     store := s; journal := journal w ++ [ServiceCall method] |}.

(** A call into a service: the service works on the record store only. *)
Definition call {A} (method : Endpoint)
    (f : Store → Completion A * Store) : Async Store A :=
  λ w,
    let '(r, s) := f (store w) in
    (r, called method s w).

(** Time passing between two requests. *)
Definition elapse (d : Z) (w : World Store) : World Store :=
  {| redis := redis w; clock := clock w + d; outages := outages w;
     store := store w; journal := journal w |}.
End World.

(** Number of service invocations in a journal. *)
Definition is_load (ev : Event) : bool :=
  match ev with
  | ServiceCall _ => true
  | _ => false
  end.

Definition loads (j : list Event) : nat :=
  length (List.filter is_load j).

(** ** Collaborators *)

(** [JSON.stringify] and [JSON.parse] on the values the services return.
    [JSON_parse] is [None] where [JSON.parse] throws a [SyntaxError].
    [JSON_stringify] is the text that reaches Redis: for a value that
    [JSON.stringify] maps to [undefined] the client sends the empty
    string, so nothing is assumed here about the text being non-empty. *)
Class JSON (Payload : Type) := {
  JSON_stringify : Payload → string;
  JSON_parse : string → option Payload
}.

(** The injected services.  Their classes are not among the sources; each
    method is taken as a parameter with the arguments the controllers pass.
    Following the specification, which makes the record store the state a
    service delegates to and keeps the Redis client with the controllers, a
    method is a computation on the record store that returns a value or
    throws; it has no access to the key space. *)
Class VehicleService (Store Payload : Type) := {
  vehicleService_getAll :
    UserInterface → option string → Z → Z → Store → Completion Payload * Store;
  vehicleService_getById :
    UserInterface → Z → Store → Completion Payload * Store;
  vehicleService_create :
    CreateVehicleDto → Store → Completion Payload * Store;
  vehicleService_update :
    Z → option string → Store → Completion Payload * Store;
  vehicleService_delete :
    Z → Store → Completion Payload * Store
}.

Class SectionService (Store Payload : Type) := {
  sectionService_getAll :
    UserInterface → Store → Completion Payload * Store;
  sectionService_getById :
    UserInterface → Z → Store → Completion Payload * Store;
  sectionService_getReservedSlots :
    UserInterface → Z → Store → Completion Payload * Store;
  sectionService_create :
    CreateSectionDto → Store → Completion Payload * Store;
  sectionService_update :
    UserInterface → Z → UpdateSectionDto → Store → Completion Payload * Store;
  sectionService_delete :
    Z → Store → Completion Payload * Store;
  sectionService_report :
    UserInterface → Z → option string → option string → Store →
    Completion Payload * Store
}.

(** ** Requests *)

(** The four cached GET routes with the arguments their decorators extract:
    the [Cache-Control] header, then the query or path parameters. *)
Inductive Read :=
| GetVehicles (cacheOption : option string) (plate : option string)
    (page limit : Z)
| GetVehicle (cacheOption : option string) (id : Z)
| GetSections (cacheOption : option string)
| GetSection (cacheOption : option string) (id : Z).

(** The PATCH and DELETE routes. *)
Inductive Mutation :=
| PatchVehicle (id : Z) (plate : option string)
| DeleteVehicle (id : Z)
| PatchSection (id : Z) (body : UpdateSectionDto)
| DeleteSection (id : Z).

Inductive Request :=
| Cached (r : Read)
| Mutating (m : Mutation)
| PostVehicle (body : CreateVehicleDto)
| PostSection (body : CreateSectionDto)
| GetReservedSlots (id : Z)
| PostReport (id : Z) (from to : option string).

Definition header (r : Read) : option string :=
  match r with
  | GetVehicles cacheOption _ _ _ => cacheOption
  | GetVehicle cacheOption _ => cacheOption
  | GetSections cacheOption => cacheOption
  | GetSection cacheOption _ => cacheOption
  end.

Definition with_header (h : option string) (r : Read) : Read :=
  match r with
  | GetVehicles _ plate page limit => GetVehicles h plate page limit
  | GetVehicle _ id => GetVehicle h id
  | GetSections _ => GetSections h
  | GetSection _ id => GetSection h id
  end.

(** The [const key] of the handler that serves [r]. *)
Definition cache_key (r : Read) : string :=
  match r with
  | GetVehicles _ _ page limit =>
      "vehicles:" +:+ Number_toString page +:+ ":" +:+ Number_toString limit
  | GetVehicle _ id => "vehicles:" +:+ Number_toString id
  | GetSections _ => "sections"
  | GetSection _ id => "sections:" +:+ Number_toString id
  end.

(** The guard of every cached handler:
    [cacheOption && cacheOption !== "no-cache"]. *)
Definition reads_cache (cacheOption : option string) : bool :=
  truthy cacheOption && bool_decide (cacheOption ≠ Some "no-cache").

Definition read_endpoint (r : Read) : Endpoint :=
  match r with
  | GetVehicles _ _ _ _ => Vehicle_getAll
  | GetVehicle _ _ => Vehicle_getById
  | GetSections _ => Section_getAll
  | GetSection _ _ => Section_getById
  end.

Definition mutation_endpoint (m : Mutation) : Endpoint :=
  match m with
  | PatchVehicle _ _ => Vehicle_update
  | DeleteVehicle _ => Vehicle_delete
  | PatchSection _ _ => Section_update
  | DeleteSection _ => Section_delete
  end.

Definition endpoint (req : Request) : Endpoint :=
  match req with
  | Cached r => read_endpoint r
  | Mutating m => mutation_endpoint m
  | PostVehicle _ => Vehicle_create
  | PostSection _ => Section_create
  | GetReservedSlots _ => Section_getReservedSlots
  | PostReport _ _ _ => Section_report
  end.

(** No [":"] occurs in [s]. *)
Fixpoint colon_free (s : string) : bool :=
  match s with
  | EmptyString => true
  | String c rest => negb (Ascii.eqb c ":") && colon_free rest
  end.

(** The events a run appended to the journal. *)
Definition appended (before after : list Event) : list Event :=
  drop (length before) after.

Definition is_redis (ev : Event) : bool :=
  match ev with
  | ServiceCall _ => false
  | _ => true
  end.

Definition is_get (ev : Event) : bool :=
  match ev with
  | RedisGet _ => true
  | _ => false
  end.

(** ** The controllers *)

Section Controllers.
Context {Store Payload : Type}.
Context `{!JSON Payload, !VehicleService Store Payload,
          !SectionService Store Payload}.

(** [JSON.parse(text)] inside a handler. *)
Definition parse (text : string) : Async Store Payload :=
  match JSON_parse text with
  | Some v => mret v
  | None => throw SyntaxError
  end.

(** [VehicleController.getAll] *)
Definition VehicleController_getAll (cacheOption : option string)
    (user : UserInterface) (plate : option string) (page limit : Z)
  : Async Store Payload :=
  let key :=
    "vehicles:" +:+ Number_toString page +:+ ":" +:+ Number_toString limit in
  let fresh :=
    vehicles ← call Vehicle_getAll (vehicleService_getAll user plate page limit);
    _ ← redis_set key (JSON_stringify vehicles) (60 * 10);
    mret vehicles in
  if truthy cacheOption && bool_decide (cacheOption ≠ Some "no-cache") then
    cachedVehicles ← redis_get key;
    match cachedVehicles with
    | Some (String _ _ as text) => parse text
    | _ => fresh
    end
  else fresh.

(** [VehicleController.getById] *)
Definition VehicleController_getById (cacheOption : option string)
    (user : UserInterface) (id : Z) : Async Store Payload :=
  let key := "vehicles:" +:+ Number_toString id in
  let fresh :=
    vehicle ← call Vehicle_getById (vehicleService_getById user id);
    _ ← redis_set key (JSON_stringify vehicle) (60 * 10);
    mret vehicle in
  if truthy cacheOption && bool_decide (cacheOption ≠ Some "no-cache") then
    cachedVehicle ← redis_get key;
    match cachedVehicle with
    | Some (String _ _ as text) => parse text
    | _ => fresh
    end
  else fresh.

(** [VehicleController.create] *)
Definition VehicleController_create (body : CreateVehicleDto)
  : Async Store Payload :=
  call Vehicle_create (vehicleService_create body).

(** [VehicleController.update] *)
Definition VehicleController_update (id : Z) (plate : option string)
  : Async Store Payload :=
  call Vehicle_update (vehicleService_update id plate).

(** [VehicleController.delete] *)
Definition VehicleController_delete (id : Z) : Async Store Payload :=
  call Vehicle_delete (vehicleService_delete id).

(** [SectionController.getAll] *)
Definition SectionController_getAll (cacheOption : option string)
    (user : UserInterface) : Async Store Payload :=
  let key := "sections" in
  let fresh :=
    sections ← call Section_getAll (sectionService_getAll user);
    _ ← redis_set key (JSON_stringify sections) (60 * 10);
    mret sections in
  if truthy cacheOption && bool_decide (cacheOption ≠ Some "no-cache") then
    cachedSections ← redis_get key;
    match cachedSections with
    | Some (String _ _ as text) => parse text
    | _ => fresh
    end
  else fresh.

(** [SectionController.getById] *)
Definition SectionController_getById (cacheOption : option string)
    (user : UserInterface) (id : Z) : Async Store Payload :=
  let key := "sections:" +:+ Number_toString id in
  let fresh :=
    section ← call Section_getById (sectionService_getById user id);
    _ ← redis_set key (JSON_stringify section) (60 * 10);
    mret section in
  if truthy cacheOption && bool_decide (cacheOption ≠ Some "no-cache") then
    cachedSection ← redis_get key;
    match cachedSection with
    | Some (String _ _ as text) => parse text
    | _ => fresh
    end
  else fresh.

(** [SectionController.getReservedSlots] *)
Definition SectionController_getReservedSlots (user : UserInterface) (id : Z)
  : Async Store Payload :=
  call Section_getReservedSlots (sectionService_getReservedSlots user id).

(** [SectionController.create] *)
Definition SectionController_create (body : CreateSectionDto)
  : Async Store Payload :=
  call Section_create (sectionService_create body).

(** [SectionController.update] *)
Definition SectionController_update (user : UserInterface) (id : Z)
    (body : UpdateSectionDto) : Async Store Payload :=
  call Section_update (sectionService_update user id body).

(** [SectionController.delete] *)
Definition SectionController_delete (id : Z) : Async Store Payload :=
  call Section_delete (sectionService_delete id).

(** [SectionController.report] *)
Definition SectionController_report (user : UserInterface) (id : Z)
    (from to : option string) : Async Store Payload :=
  call Section_report (sectionService_report user id from to).

(** ** Routing *)

(** The cached GET routes. *)
Definition get (user : UserInterface) (r : Read) : Async Store Payload :=
  match r with
  | GetVehicles cacheOption plate page limit =>
      VehicleController_getAll cacheOption user plate page limit
  | GetVehicle cacheOption id => VehicleController_getById cacheOption user id
  | GetSections cacheOption => SectionController_getAll cacheOption user
  | GetSection cacheOption id => SectionController_getById cacheOption user id
  end.

(** The PATCH and DELETE routes. *)
Definition mutate (user : UserInterface) (m : Mutation) : Async Store Payload :=
  match m with
  | PatchVehicle id plate => VehicleController_update id plate
  | DeleteVehicle id => VehicleController_delete id
  | PatchSection id body => SectionController_update user id body
  | DeleteSection id => SectionController_delete id
  end.

Definition handle (user : UserInterface) (req : Request)
  : Async Store Payload :=
  match req with
  | Cached r => get user r
  | Mutating m => mutate user m
  | PostVehicle body => VehicleController_create body
  | PostSection body => SectionController_create body
  | GetReservedSlots id => SectionController_getReservedSlots user id
  | PostReport id from to => SectionController_report user id from to
  end.

(** A request as the framework serves it: [RolesGuard] first, then the
    handler; a caller the guard turns away gets 403. *)
Definition serve (user : UserInterface) (req : Request)
  : Async Store Payload :=
  if RolesGuard_canActivate (Roles (endpoint req)) user then handle user req
  else throw (HttpException 403).

(** The service call behind a cached route. *)
Definition loader (user : UserInterface) (r : Read)
  : Store → Completion Payload * Store :=
  match r with
  | GetVehicles _ plate page limit =>
      vehicleService_getAll user plate page limit
  | GetVehicle _ id => vehicleService_getById user id
  | GetSections _ => sectionService_getAll user
  | GetSection _ id => sectionService_getById user id
  end.

(** The pattern the four cached handlers share, used to reason about them
    at once (see [get_cache_aside]): first the path taken on a miss or a
    bypass, then the whole handler. *)
Definition refresh (key : string) (method : Endpoint)
    (load : Store → Completion Payload * Store) : Async Store Payload :=
  result ← call method load;
  _ ← redis_set key (JSON_stringify result) 600;
  mret result.

Definition cache_aside (cacheOption : option string) (key : string)
    (method : Endpoint) (load : Store → Completion Payload * Store)
  : Async Store Payload :=
  if reads_cache cacheOption then
    cached ← redis_get key;
    match cached with
    | Some (String _ _ as text) => parse text
    | _ => refresh key method load
    end
  else refresh key method load.

(** What a cache hit answers: the parsed text, or the parser's error. *)
Definition parsed (text : string) : Completion Payload :=
  match JSON_parse text with
  | Some v => Return v
  | None => Throw SyntaxError
  end.

(** The world in which the miss-or-bypass path of a cached handler starts:
    the initial one on a bypass, the one after an unsuccessful lookup
    otherwise. *)
Definition entered (r : Read) (w w0 : World Store) : Prop :=
  (reads_cache (header r) = false ∧ w0 = w) ∨
  (reads_cache (header r) = true ∧ rejected w = false ∧
   truthy (live w (cache_key r)) = false ∧
   w0 = record (RedisGet (cache_key r)) (consume w)).

(** The five ways a cached handler can end, as a relation between the
    initial world and the completion with its final world. *)
Inductive ends (user : UserInterface) (r : Read) (w : World Store)
  : Completion Payload * World Store → Prop :=
| ends_get_rejected :
    reads_cache (header r) = true → rejected w = true →
    ends user r w
      (Throw RedisError, record (RedisGet (cache_key r)) (consume w))
| ends_hit text :
    reads_cache (header r) = true → rejected w = false →
    live w (cache_key r) = Some text → text ≠ EmptyString →
    ends user r w (parsed text, record (RedisGet (cache_key r)) (consume w))
| ends_load_failed w0 e s :
    entered r w w0 → loader user r (store w) = (Throw e, s) →
    ends user r w (Throw e, called (read_endpoint r) s w0)
| ends_set_rejected w0 v s :
    entered r w w0 → loader user r (store w) = (Return v, s) →
    rejected w0 = true →
    ends user r w
      (Throw RedisError,
       record (RedisSet (cache_key r) (JSON_stringify v) 600)
         (consume (called (read_endpoint r) s w0)))
| ends_refreshed w0 v s :
    entered r w w0 → loader user r (store w) = (Return v, s) →
    rejected w0 = false →
    ends user r w
      (Return v,
       put (cache_key r) (JSON_stringify v) 600
         (record (RedisSet (cache_key r) (JSON_stringify v) 600)
            (consume (called (read_endpoint r) s w0)))).

End Controllers.

(** ** An in-memory fake of the collaborators

    A small record store, services over it and a JSON codec for the values
    they return.  The properties below hold for every implementation of the
    collaborators; the fake is what concrete runs are evaluated on. *)

Module Fake.

(** Payloads: a plate or a section name, or a list of them. *)
Inductive Json :=
| JStr (s : string)
| JArr (l : list string).

Definition quote : ascii := "034"%char.
Definition backslash : ascii := "092"%char.

Definition quoted (s : string) : string :=
  String quote (s +:+ String quote EmptyString).

Fixpoint joined (l : list string) : string :=
  match l with
  | [] => EmptyString
  | [s] => quoted s
  | s :: rest => quoted s +:+ "," +:+ joined rest
  end.

(** [JSON.stringify] on strings that need no escaping and on arrays of
    them. *)
Definition stringify (v : Json) : string :=
  match v with
  | JStr s => quoted s
  | JArr l => "[" +:+ joined l +:+ "]"
  end.

Inductive Scan :=
| Open                 (* before the opening quote of an item *)
| Inside (s : string)  (* within a string literal read so far as [s] *)
| Closed               (* after a closing quote *)
| Done.                (* after the closing bracket *)

(** Reads the items of an array, the opening bracket already consumed. *)
Fixpoint items (text : string) (st : Scan) (acc : list string)
  : option (list string) :=
  match text with
  | EmptyString =>
      match st with
      | Done => Some acc
      | _ => None
      end
  | String c rest =>
      match st with
      | Open =>
          if Ascii.eqb c quote then items rest (Inside EmptyString) acc
          else None
      | Inside s =>
          if Ascii.eqb c quote then items rest Closed (acc ++ [s])
          else if Ascii.eqb c backslash then None
          else if (nat_of_ascii c <? 32)%nat then None
          else items rest (Inside (s +:+ String c EmptyString)) acc
      | Closed =>
          if Ascii.eqb c "," then items rest Open acc
          else if Ascii.eqb c "]" then items rest Done acc
          else None
      | Done => None
      end
  end.

(** [JSON.parse] restricted to the texts [stringify] produces; anything
    else is a syntax error. *)
Definition parse_text (text : string) : option Json :=
  match text with
  | String "[" (String "]" EmptyString) => Some (JArr [])
  | String "[" rest => JArr <$> items rest Open []
  | _ =>
      match items (text +:+ "]") Open [] with
      | Some [s] => Some (JStr s)
      | _ => None
      end
  end.

#[global] Instance json : JSON Json :=
  {| JSON_stringify := stringify; JSON_parse := parse_text |}.

(** The record store: vehicles and sections by id. *)
Record Garage := {
  vehicles : list (Z * string);
  sections : list (Z * string)
}.

Definition find_by_id (i : Z) (rows : list (Z * string)) : option string :=
  snd <$> List.find (λ row, Z.eqb (fst row) i) rows.

Definition without (i : Z) (rows : list (Z * string)) : list (Z * string) :=
  List.filter (λ row, negb (Z.eqb (fst row) i)) rows.

Definition renamed (i : Z) (s : string) (rows : list (Z * string))
  : list (Z * string) :=
  List.map (λ row, if Z.eqb (fst row) i then (i, s) else row) rows.

Definition taken (s : string) (rows : list (Z * string)) : bool :=
  existsb (λ row, String.eqb (snd row) s) rows.

Definition next_id (rows : list (Z * string)) : Z :=
  1 + foldr Z.max 0 (fst <$> rows).

Definition matching (plate : option string) (rows : list (Z * string))
  : list (Z * string) :=
  match plate with
  | Some (String _ _ as p) => List.filter (λ row, String.eqb (snd row) p) rows
  | _ => rows
  end.

Definition paged (page limit : Z) (rows : list (Z * string))
  : list (Z * string) :=
  take (Z.to_nat limit) (drop (Z.to_nat ((page - 1) * limit)) rows).

Definition lookup_row (i : Z) (rows : list (Z * string)) (g : Garage)
  : Completion Json * Garage :=
  match find_by_id i rows with
  | Some s => (Return (JStr s), g)
  | None => (Throw (HttpException 404), g)
  end.

#[global] Instance vehicle_service : VehicleService Garage Json := {|
  vehicleService_getAll _ plate page limit g :=
    (Return (JArr (snd <$> paged page limit (matching plate (vehicles g)))), g);
  vehicleService_getById _ i g := lookup_row i (vehicles g) g;
  vehicleService_create body g :=
    if taken (plate body) (vehicles g) then (Throw (HttpException 409), g)
    else (Return (JStr (plate body)),
          {| vehicles := vehicles g ++ [(next_id (vehicles g), plate body)];
             sections := sections g |});
  vehicleService_update i p g :=
    match find_by_id i (vehicles g), p with
    | Some _, Some p =>
        (Return (JStr p),
         {| vehicles := renamed i p (vehicles g); sections := sections g |})
    | Some _, None => (Throw (HttpException 400), g)
    | None, _ => (Throw (HttpException 404), g)
    end;
  vehicleService_delete i g :=
    match find_by_id i (vehicles g) with
    | Some s =>
        (Return (JStr s),
         {| vehicles := without i (vehicles g); sections := sections g |})
    | None => (Throw (HttpException 404), g)
    end
|}.

#[global] Instance section_service : SectionService Garage Json := {|
  sectionService_getAll _ g := (Return (JArr (snd <$> sections g)), g);
  sectionService_getById _ i g := lookup_row i (sections g) g;
  sectionService_getReservedSlots _ i g :=
    match find_by_id i (sections g) with
    | Some _ => (Return (JArr []), g)
    | None => (Throw (HttpException 404), g)
    end;
  sectionService_create body g :=
    if taken (name body) (sections g) then (Throw (HttpException 409), g)
    else (Return (JStr (name body)),
          {| vehicles := vehicles g;
             sections := sections g ++ [(next_id (sections g), name body)] |});
  sectionService_update _ i body g :=
    match find_by_id i (sections g) with
    | Some s =>
        let s' := default s (new_name body) in
        (Return (JStr s'),
         {| vehicles := vehicles g; sections := renamed i s' (sections g) |})
    | None => (Throw (HttpException 404), g)
    end;
  sectionService_delete i g :=
    match find_by_id i (sections g) with
    | Some s =>
        (Return (JStr s),
         {| vehicles := vehicles g; sections := without i (sections g) |})
    | None => (Throw (HttpException 404), g)
    end;
  sectionService_report _ i _ _ g :=
    match find_by_id i (sections g) with
    | Some _ => (Return (JArr []), g)
    | None => (Throw (HttpException 404), g)
    end
|}.

Definition garage : Garage :=
  {| vehicles := [(1, "29A12345"); (2, "30F99999")];
     sections := [(1, "B1"); (2, "B2")] |}.

(** A healthy Redis with nothing cached, at time 1000. *)
Definition world0 : World Garage :=
  {| redis := ∅; clock := 1000; outages := []; store := garage;
     journal := [] |}.

(** The same world with its first Redis command rejected. *)
Definition offline : World Garage :=
  {| redis := ∅; clock := 1000; outages := [true]; store := garage;
     journal := [] |}.

(** A world whose cache holds text under [sections:1] that is not JSON. *)
Definition corrupted : World Garage :=
  {| redis := {[ "sections:1" := {| value := "{oops"; expires_at := 1600 |} ]};
     clock := 1000; outages := []; store := garage; journal := [] |}.

(** A world whose cache holds section 1, stored at time 1000. *)
Definition warm : World Garage :=
  {| redis := {[ "sections:1" := {| value := quoted "B1";
                                    expires_at := 1600 |} ]};
     clock := 1000; outages := []; store := garage; journal := [] |}.

Definition guard : UserInterface := {| id := 7; role := "SECURITY" |}.
Definition admin : UserInterface := {| id := 1; role := "ADMIN" |}.

End Fake.

(** ** Selectors and sequences of requests *)

(** [Number.MAX_SAFE_INTEGER]: up to it every integer is a double of its
    own and [Number_toString] is the rendering the handlers produce. *)
Definition MAX_SAFE_INTEGER : Z := 2 ^ 53 - 1.

Definition safe_integer (n : Z) : Prop :=
  - MAX_SAFE_INTEGER ≤ n ≤ MAX_SAFE_INTEGER.

(** The numbers that enter the key of a cached route. *)
Definition key_fields (r : Read) : list Z :=
  match r with
  | GetVehicles _ _ page limit => [page; limit]
  | GetVehicle _ id => [id]
  | GetSections _ => []
  | GetSection _ id => [id]
  end.

(** A cached GET arriving [delay] seconds after the previous request was
    answered. *)
Record Arrival := {
  delay : Z;
  caller : UserInterface;
  request : Read
}.

Definition total_delay (arrivals : list Arrival) : Z :=
  foldr (λ a rest, delay a + rest) 0 arrivals.

Section Sequences.
Context {Store Payload : Type}.
Context `{!JSON Payload, !VehicleService Store Payload,
          !SectionService Store Payload}.

(** The controllers serving a sequence of cached GETs one after the
    other. *)
Fixpoint replay (arrivals : list Arrival) (w : World Store)
  : list (Completion Payload) * World Store :=
  match arrivals with
  | [] => ([], w)
  | a :: rest =>
      let '(res, w1) := get (caller a) (request a) (elapse (delay a) w) in
      let '(more, w2) := replay rest w1 in
      (res :: more, w2)
  end.

End Sequences.

(** * Properties *)

(** ** Worlds and journals *)

Section Facts.
Context {Store Payload : Type}.
Context `{!JSON Payload, !VehicleService Store Payload,
          !SectionService Store Payload}.

Implicit Types (w : World Store) (r : Read) (user : UserInterface).

(** Case analysis on membership in an explicit list of events. *)
Ltac members H :=
  repeat (apply elem_of_cons in H as [H | H]; [simplify_eq |]);
  try (by apply elem_of_nil in H).

Lemma appended_app (j extra : list Event) : appended j (j ++ extra) = extra.
Proof. unfold appended. by rewrite drop_app_length. Qed.

Lemma appended_app2 (j : list Event) (e1 e2 : Event) :
  appended j ((j ++ [e1]) ++ [e2]) = [e1; e2].
Proof. rewrite <- app_assoc. apply appended_app. Qed.

Lemma appended_app3 (j : list Event) (e1 e2 e3 : Event) :
  appended j (((j ++ [e1]) ++ [e2]) ++ [e3]) = [e1; e2; e3].
Proof. rewrite <- !app_assoc. apply appended_app. Qed.

Lemma loads_app (j extra : list Event) :
  loads (j ++ extra) = (loads j + loads extra)%nat.
Proof. unfold loads. by rewrite List.filter_app, length_app. Qed.

(** Counts the service calls in a journal given event by event. *)
Ltac count_loads := rewrite ?loads_app; unfold loads; simpl; lia.

Lemma truthy_Some (text : string) :
  text ≠ EmptyString → ∃ c rest, text = String c rest.
Proof. destruct text; [done | eauto]. Qed.

Lemma reads_cache_spec (h : option string) :
  reads_cache h = true ↔
  ∃ text, h = Some text ∧ text ≠ EmptyString ∧ text ≠ "no-cache".
Proof.
  unfold reads_cache. split.
  - intros [Ht Hd]%andb_prop. apply bool_decide_eq_true in Hd.
    destruct h as [[|c rest]|]; try done.
    exists (String c rest). split_and!; [done | done | congruence].
  - intros (text & -> & Hne & Hnc). destruct text as [|c rest]; [done |].
    simpl. apply bool_decide_eq_true. congruence.
Qed.

(** Every cached handler is an instance of [cache_aside]. *)
Lemma get_cache_aside user r :
  get user r =
  cache_aside (header r) (cache_key r) (read_endpoint r) (loader user r).
Proof. by destruct r. Qed.

(** ** Runs of the shared pattern *)

Section Runs.
Variables (key : string) (method : Endpoint).
Variable load : Store → Completion Payload * Store.

Lemma refresh_throws w e s :
  load (store w) = (Throw e, s) →
  refresh key method load w = (Throw e, called method s w).
Proof.
  intros Hl. unfold refresh, mbind, Async_bind, call. by rewrite Hl.
Qed.

Lemma refresh_set_rejected w v s :
  load (store w) = (Return v, s) → rejected w = true →
  refresh key method load w =
  (Throw RedisError,
   record (RedisSet key (JSON_stringify v) 600) (consume (called method s w))).
Proof.
  intros Hl Hr. unfold refresh, mbind, Async_bind, call, redis_set.
  rewrite Hl. change (rejected (called method s w)) with (rejected w).
  by rewrite Hr.
Qed.

Lemma refresh_returns w v s :
  load (store w) = (Return v, s) → rejected w = false →
  refresh key method load w =
  (Return v,
   put key (JSON_stringify v) 600
     (record (RedisSet key (JSON_stringify v) 600)
        (consume (called method s w)))).
Proof.
  intros Hl Hr. unfold refresh, mbind, Async_bind, call, redis_set.
  rewrite Hl. change (rejected (called method s w)) with (rejected w).
  by rewrite Hr.
Qed.

Lemma cache_aside_bypass h w :
  reads_cache h = false →
  cache_aside h key method load w = refresh key method load w.
Proof. intros Hh. unfold cache_aside. by rewrite Hh. Qed.

Lemma cache_aside_get_rejected h w :
  reads_cache h = true → rejected w = true →
  cache_aside h key method load w =
  (Throw RedisError, record (RedisGet key) (consume w)).
Proof.
  intros Hh Hr. unfold cache_aside, mbind, Async_bind, redis_get.
  by rewrite Hh, Hr.
Qed.

Lemma cache_aside_hit h w text :
  reads_cache h = true → rejected w = false →
  live w key = Some text → text ≠ EmptyString →
  cache_aside h key method load w =
  (parsed text, record (RedisGet key) (consume w)).
Proof.
  intros Hh Hr Hl [c [rest ->]]%truthy_Some.
  unfold cache_aside, mbind, Async_bind, redis_get.
  rewrite Hh, Hr, Hl. unfold parse, parsed.
  by destruct (JSON_parse (String c rest)).
Qed.

Lemma cache_aside_miss h w :
  reads_cache h = true → rejected w = false → truthy (live w key) = false →
  cache_aside h key method load w =
  refresh key method load (record (RedisGet key) (consume w)).
Proof.
  intros Hh Hr Hl. unfold cache_aside, mbind, Async_bind, redis_get.
  rewrite Hh, Hr. by destruct (live w key) as [[|c rest]|].
Qed.

End Runs.

Lemma refresh_ends user r w w0 :
  entered r w w0 →
  ends user r w
    (refresh (cache_key r) (read_endpoint r) (loader user r) w0).
Proof.
  intros Hin.
  assert (store w0 = store w) as Hs.
  { destruct Hin as [[_ ->] | (_ & _ & _ & ->)]; done. }
  destruct (loader user r (store w)) as [[v|e] s] eqn:Hl.
  - destruct (rejected w0) eqn:Hr.
    + rewrite (refresh_set_rejected _ _ _ w0 v s) by (by rewrite ?Hs).
      by apply ends_set_rejected.
    + rewrite (refresh_returns _ _ _ w0 v s) by (by rewrite ?Hs).
      by apply ends_refreshed.
  - rewrite (refresh_throws _ _ _ w0 e s) by (by rewrite Hs).
    by apply ends_load_failed.
Qed.

(** Every run of a cached handler ends in one of the five ways. *)
Lemma get_ends user r w : ends user r w (get user r w).
Proof.
  rewrite get_cache_aside.
  destruct (reads_cache (header r)) eqn:Hh.
  - destruct (rejected w) eqn:Hr.
    + rewrite cache_aside_get_rejected by done. by apply ends_get_rejected.
    + destruct (truthy (live w (cache_key r))) eqn:Hl.
      * destruct (live w (cache_key r)) as [text|] eqn:Hlive; [|done].
        assert (text ≠ EmptyString) by (by destruct text).
        rewrite (cache_aside_hit _ _ _ _ w text) by done.
        by apply ends_hit.
      * rewrite cache_aside_miss by done.
        apply refresh_ends. right. by split_and!.
  - rewrite cache_aside_bypass by done. apply refresh_ends. by left.
Qed.

(** ** The cached GET handlers *)

Lemma entered_journal r w w0 :
  entered r w w0 →
  (reads_cache (header r) = false ∧ journal w0 = journal w) ∨
  (reads_cache (header r) = true ∧
   journal w0 = journal w ++ [RedisGet (cache_key r)]).
Proof. intros [[? ->] | (? & _ & _ & ->)]; [by left | by right]. Qed.

Lemma entered_frame r w w0 :
  entered r w w0 →
  redis w0 = redis w ∧ clock w0 = clock w ∧ store w0 = store w.
Proof. by intros [[_ ->] | (_ & _ & _ & ->)]. Qed.

(** C5. On a cache hit (the header makes the handler consult Redis, the
    command goes through, and Redis holds a non-empty text under the key)
    the response is the deserialization of that text and nothing else
    happens: the journal grows by the one [GET], so no service is called
    and nothing is written, and the key space (entries with their expiry
    times) and the record store are unchanged. *)
Theorem hit_answers_from_cache user r w text :
  reads_cache (header r) = true →
  rejected w = false →
  live w (cache_key r) = Some text →
  text ≠ EmptyString →
  ∃ w',
    get user r w = (parsed text, w') ∧
    journal w' = journal w ++ [RedisGet (cache_key r)] ∧
    redis w' = redis w ∧
    store w' = store w.
Proof.
  intros Hh Hr Hl Ht. rewrite get_cache_aside.
  rewrite (cache_aside_hit _ _ _ _ w text) by done.
  by eexists.
Qed.

(** C8 (amended). On a non-bypass read, when Redis returns a non-empty text
    that fails deserialization, the [SyntaxError] reaches the caller: the
    request fails, no service is called and nothing is written. *)
Theorem malformed_entry_fails_request user r w text :
  reads_cache (header r) = true →
  rejected w = false →
  live w (cache_key r) = Some text →
  text ≠ EmptyString →
  JSON_parse text = None →
  ∃ w',
    get user r w = (Throw SyntaxError, w') ∧
    journal w' = journal w ++ [RedisGet (cache_key r)] ∧
    redis w' = redis w ∧
    store w' = store w.
Proof.
  intros Hh Hr Hl Ht Hp. rewrite get_cache_aside.
  rewrite (cache_aside_hit _ _ _ _ w text) by done.
  unfold parsed. rewrite Hp. by eexists.
Qed.

(** C3 (amended). A rejected Redis command fails the request.  Whichever of
    the commands a cached handler issues is rejected, the handler throws
    the Redis error; when it is the lookup, the request fails before any
    service is called. *)
Theorem rejected_command_fails_request user r w :
  (∀ i : nat,
     (i < length (List.filter is_redis
                    (appended (journal w) (journal (get user r w).2))))%nat →
     outages w !! i = Some true →
     (get user r w).1 = Throw RedisError) ∧
  (reads_cache (header r) = true → rejected w = true →
   get user r w =
   (Throw RedisError, record (RedisGet (cache_key r)) (consume w))).
Proof.
  split.
  - intros i Hi Ho.
    destruct (get_ends user r w) as [Hh Hr | text Hh Hr Hl Ht
      | w0 e s Hin Hload | w0 v s Hin Hload Hr | w0 v s Hin Hload Hr];
      simpl in *; try done.
    + rewrite appended_app in Hi. simpl in Hi.
      assert (i = 0%nat) as -> by lia.
      unfold rejected in Hr. destruct (outages w); simplify_eq/=.
    + destruct Hin as [[Hh ->] | (Hh & Hr & _ & ->)]; simpl in Hi.
      * rewrite appended_app in Hi. simpl in Hi. lia.
      * rewrite appended_app2 in Hi. simpl in Hi.
        assert (i = 0%nat) as -> by lia.
        unfold rejected in Hr. destruct (outages w); simplify_eq/=.
    + destruct Hin as [[Hh ->] | (Hh & Hr' & _ & ->)]; simpl in Hi, Hr.
      * rewrite appended_app2 in Hi. simpl in Hi.
        assert (i = 0%nat) as -> by lia.
        unfold rejected in Hr. destruct (outages w); simplify_eq/=.
      * rewrite appended_app3 in Hi. simpl in Hi.
        unfold rejected in Hr, Hr'. simpl in Hr.
        destruct (outages w) as [|b [|b' l]]; simplify_eq/=;
          destruct i as [|[|i]]; simplify_eq/=; lia.
  - intros Hh Hr. rewrite get_cache_aside.
    by apply cache_aside_get_rejected.
Qed.

Lemma live_after_put key text d w :
  d < 600 → live (elapse d (put key text 600 w)) key = Some text.
Proof.
  intros Hd. unfold live. simpl. rewrite lookup_insert_eq. simpl.
  rewrite bool_decide_eq_true_2; [done | lia].
Qed.

Lemma live_put key text w : live (put key text 600 w) key = Some text.
Proof.
  unfold live. simpl. rewrite lookup_insert_eq. simpl.
  rewrite bool_decide_eq_true_2; [done | lia].
Qed.

Lemma bypass_run user r w :
  reads_cache (header r) = false →
  get user r w = refresh (cache_key r) (read_endpoint r) (loader user r) w.
Proof. intros Hh. rewrite get_cache_aside. by apply cache_aside_bypass. Qed.

(** What the miss-or-bypass path adds to the journal: the service call
    first, never a lookup, and the [SET] whenever the service returned. *)
Lemma refresh_journal key method load w :
  (∃ rest,
     appended (journal w) (journal (refresh key method load w).2) =
     ServiceCall method :: rest ∧
     List.filter is_get rest = []) ∧
  (∀ v s, load (store w) = (Return v, s) →
     appended (journal w) (journal (refresh key method load w).2) =
     [ServiceCall method; RedisSet key (JSON_stringify v) 600]).
Proof.
  destruct (load (store w)) as [[v|e] s] eqn:Hl.
  - assert (appended (journal w) (journal (refresh key method load w).2) =
            [ServiceCall method; RedisSet key (JSON_stringify v) 600]) as Hj.
    { destruct (rejected w) eqn:Hr.
      - rewrite (refresh_set_rejected _ _ _ w v s) by done.
        simpl. apply appended_app2.
      - rewrite (refresh_returns _ _ _ w v s) by done.
        simpl. apply appended_app2. }
    split.
    + rewrite Hj. by eexists.
    + intros v' s' Heq. by simplify_eq.
  - rewrite (refresh_throws _ _ _ w e s) by done. simpl. split.
    + rewrite appended_app. by eexists.
    + intros v' s' Heq. done.
Qed.

(** A warm entry answers the next cached read of the same key. *)
Lemma warm_hit user r w key text d :
  reads_cache (header r) = true →
  cache_key r = key →
  d < 600 →
  text ≠ EmptyString →
  rejected w = false →
  get user r (elapse d (put key text 600 w)) =
  (parsed text,
   record (RedisGet key) (consume (elapse d (put key text 600 w)))).
Proof.
  intros Hh <- Hd Ht Hr. rewrite get_cache_aside.
  apply cache_aside_hit; try done. by apply live_after_put.
Qed.

(** C4. A request with [Cache-Control: no-cache] never looks the key up
    and always calls the service first.  Whenever the service returns, the
    handler issues the [SET] of the serialized result with expiry 600; when
    Redis accepts it the result is returned, the key holds the fresh text,
    and a later request for the same key whose header lets it read the
    cache is answered from that text, by one [GET] and nothing else. *)
Theorem bypass_reloads_and_rewrites user r w :
  header r = Some "no-cache" →
  (∃ rest,
     appended (journal w) (journal (get user r w).2) =
     ServiceCall (read_endpoint r) :: rest ∧
     List.filter is_get rest = []) ∧
  (∀ v s, loader user r (store w) = (Return v, s) →
     appended (journal w) (journal (get user r w).2) =
     [ServiceCall (read_endpoint r);
      RedisSet (cache_key r) (JSON_stringify v) 600] ∧
     (rejected w = false →
      (get user r w).1 = Return v ∧
      live (get user r w).2 (cache_key r) = Some (JSON_stringify v) ∧
      ∀ user' r' d,
        reads_cache (header r') = true →
        cache_key r' = cache_key r →
        0 ≤ d < 600 →
        JSON_stringify v ≠ EmptyString →
        rejected (get user r w).2 = false →
        ∃ w2,
          get user' r' (elapse d (get user r w).2) =
          (parsed (JSON_stringify v), w2) ∧
          journal w2 =
          journal (get user r w).2 ++ [RedisGet (cache_key r)] ∧
          store w2 = store (get user r w).2)).
Proof.
  intros Hh.
  assert (reads_cache (header r) = false) as Hb by (by rewrite Hh).
  rewrite (bypass_run user r w Hb).
  destruct (refresh_journal (cache_key r) (read_endpoint r)
              (loader user r) w) as [Hfirst Hset].
  split; [done |]. intros v s Hl. split; [by eapply Hset |].
  intros Hr. rewrite (refresh_returns _ _ _ w v s) by done. simpl.
  split_and!; [done | |].
  - apply live_put.
  - intros user' r' d Hh' Hk [_ Hd] Hne Hr'.
    rewrite (warm_hit user' r' _ (cache_key r) (JSON_stringify v) d)
      by done.
    by eexists.
Qed.

(** C6. A request without the [Cache-Control] header is handled exactly as
    one with [Cache-Control: no-cache]: no lookup, the service call first,
    and the [SET] of its result whenever it returns.  A lookup is issued
    only when the header is present with a value other than ["no-cache"]. *)
Theorem absent_header_acts_as_no_cache user r w :
  get user (with_header None r) w =
  get user (with_header (Some "no-cache") r) w ∧
  (header r = None →
   (∃ rest,
      appended (journal w) (journal (get user r w).2) =
      ServiceCall (read_endpoint r) :: rest ∧
      List.filter is_get rest = []) ∧
   (∀ v s, loader user r (store w) = (Return v, s) →
      appended (journal w) (journal (get user r w).2) =
      [ServiceCall (read_endpoint r);
       RedisSet (cache_key r) (JSON_stringify v) 600])) ∧
  (∀ key,
     RedisGet key ∈ appended (journal w) (journal (get user r w).2) →
     ∃ text, header r = Some text ∧ text ≠ "no-cache").
Proof.
  split_and!.
  - by destruct r.
  - intros Hh.
    assert (reads_cache (header r) = false) as Hb by (by rewrite Hh).
    rewrite (bypass_run user r w Hb). apply refresh_journal.
  - intros key Hin.
    destruct (reads_cache (header r)) eqn:Hb.
    + apply reads_cache_spec in Hb as (text & ? & _ & ?). eauto.
    + rewrite (bypass_run user r w Hb) in Hin.
      destruct (refresh_journal (cache_key r) (read_endpoint r)
                  (loader user r) w) as [(rest & Hj & Hnone) _].
      rewrite Hj in Hin. apply elem_of_cons in Hin as [? | Hin]; [done |].
      apply list_elem_of_In in Hin.
      assert (In (RedisGet key) (List.filter is_get rest)) as Hf
        by (by apply filter_In).
      rewrite Hnone in Hf. done.
Qed.

(** C9. Every [SET] a cached read handler issues is on the handler's key
    with an expiry of 600 seconds, and when the handler returns, the key
    holds the serialized result with an expiry time 600 seconds past the
    time of the request. *)
Theorem cache_writes_expire_after_600 user r w key text ex :
  RedisSet key text ex ∈ appended (journal w) (journal (get user r w).2) →
  key = cache_key r ∧ ex = 600 ∧
  (∀ v, (get user r w).1 = Return v →
     text = JSON_stringify v ∧
     redis (get user r w).2 !! key =
     Some {| value := text; expires_at := clock w + 600 |}).
Proof.
  intros Hin.
  destruct (get_ends user r w) as [Hh Hr | cached Hh Hr Hl Ht
    | w0 e s Hin0 Hload | w0 v s Hin0 Hload Hr | w0 v s Hin0 Hload Hr];
    simpl in *.
  - rewrite appended_app in Hin. by members Hin.
  - rewrite appended_app in Hin. by members Hin.
  - destruct (entered_journal _ _ _ Hin0) as [[_ Hj] | [_ Hj]];
      rewrite Hj in Hin.
    + rewrite appended_app in Hin. by members Hin.
    + rewrite appended_app2 in Hin. by members Hin.
  - assert (key = cache_key r ∧ text = JSON_stringify v ∧ ex = 600)
      as (-> & -> & ->).
    { destruct (entered_journal _ _ _ Hin0) as [[_ Hj] | [_ Hj]];
        rewrite Hj in Hin.
      - rewrite appended_app2 in Hin. by members Hin.
      - rewrite appended_app3 in Hin. by members Hin. }
    done.
  - assert (key = cache_key r ∧ text = JSON_stringify v ∧ ex = 600)
      as (-> & -> & ->).
    { destruct (entered_journal _ _ _ Hin0) as [[_ Hj] | [_ Hj]];
        rewrite Hj in Hin.
      - rewrite appended_app2 in Hin. by members Hin.
      - rewrite appended_app3 in Hin. by members Hin. }
    split_and!; [done | done |]. intros v' [= <-]. split; [done |].
    rewrite lookup_insert_eq.
    by destruct (entered_frame _ _ _ Hin0) as (_ & -> & _).
Qed.

(** A cached handler calls at most one service method. *)
Lemma get_loads user r w :
  (loads (journal (get user r w).2) ≤ loads (journal w) + 1)%nat.
Proof.
  destruct (get_ends user r w) as [Hh Hr | cached Hh Hr Hl Ht
    | w0 e s Hin0 Hload | w0 v s Hin0 Hload Hr | w0 v s Hin0 Hload Hr];
    simpl;
    try (destruct (entered_journal _ _ _ Hin0) as [[_ ->] | [_ ->]]);
    count_loads.
Qed.

(** X14. Two successive requests for the same key, both with a non-empty
    [Cache-Control] header other than ["no-cache"], the second less than
    600 seconds after the first returned a result whose serialization is
    not empty: the service is called at most once over the two requests.
    When the first request was the one that called it, and Redis accepts
    the second lookup, the second request is answered with the
    deserialization of the text the first one stored, by one [GET] and
    without touching the record store. *)
Theorem warm_read_loads_at_most_once user user' r r' w v w1 d :
  reads_cache (header r) = true →
  reads_cache (header r') = true →
  cache_key r' = cache_key r →
  get user r w = (Return v, w1) →
  JSON_stringify v ≠ EmptyString →
  0 ≤ d < 600 →
  (loads (journal (get user' r' (elapse d w1)).2) ≤ loads (journal w) + 1)%nat ∧
  (loads (journal w1) = (loads (journal w) + 1)%nat →
   rejected w1 = false →
   (get user' r' (elapse d w1)).1 = parsed (JSON_stringify v) ∧
   journal (get user' r' (elapse d w1)).2 =
   journal w1 ++ [RedisGet (cache_key r)] ∧
   store (get user' r' (elapse d w1)).2 = store w1).
Proof.
  intros Hh Hh' Hk Hrun Hne [_ Hd].
  pose proof (get_ends user r w) as He. rewrite Hrun in He.
  inversion He as [| cached _ Hr Hl Ht Hp | | | w0 v0 s Hin0 Hload Hr0];
    subst; clear He.
  - (* the first request was a hit *)
    split.
    + etrans; [apply get_loads |]. simpl. count_loads.
    + simpl. count_loads.
  - (* the first request called the service and stored its result *)
    destruct Hin0 as [[Hb _] | (_ & Hr & Hmiss & ->)]; [congruence |].
    set (w2 := record (RedisSet (cache_key r) (JSON_stringify v) 600)
                 (consume (called (read_endpoint r) s
                    (record (RedisGet (cache_key r)) (consume w))))).
    destruct (rejected (put (cache_key r) (JSON_stringify v) 600 w2))
      eqn:Hr2.
    + split; [| done]. rewrite get_cache_aside.
      rewrite cache_aside_get_rejected by done. simpl. count_loads.
    + rewrite (warm_hit user' r' w2 (cache_key r) (JSON_stringify v) d)
        by done.
      simpl. split; [count_loads | done].
Qed.

(** ** The PATCH and DELETE handlers *)

Lemma mutate_call user m :
  ∃ f : Store → Completion Payload * Store,
    mutate user m = call (mutation_endpoint m) f.
Proof. destruct m; simpl; by eexists. Qed.

(** C7. A PATCH or DELETE handler issues no Redis command: it calls its
    service method and nothing else, so the key space is the same after
    it, whatever the service did to the record store.  A cached read that
    would have been a hit [d] seconds later is still one after the
    mutation, and answers with the text stored before it. *)
Theorem mutation_leaves_cache user m w :
  redis (mutate user m w).2 = redis w ∧
  appended (journal w) (journal (mutate user m w).2) =
  [ServiceCall (mutation_endpoint m)] ∧
  (∀ user' r d text,
     reads_cache (header r) = true →
     rejected w = false →
     live (elapse d w) (cache_key r) = Some text →
     text ≠ EmptyString →
     ∃ w',
       get user' r (elapse d (mutate user m w).2) = (parsed text, w') ∧
       journal w' =
       journal (mutate user m w).2 ++ [RedisGet (cache_key r)]).
Proof.
  destruct (mutate_call user m) as [f ->]. unfold call.
  destruct (f (store w)) as [res s]. simpl. split_and!.
  - done.
  - apply appended_app.
  - intros user' r d text Hh Hr Hl Ht. rewrite get_cache_aside.
    rewrite (cache_aside_hit _ _ _ _ _ text) by done.
    by eexists.
Qed.

End Facts.

(** ** The role policy *)

(** The whole table for the two roles the annotations name. *)
Lemma admin_allowed_everywhere (e : Endpoint) : allowed "ADMIN" e = true.
Proof. by destruct e. Qed.

Lemma security_policy_table (e : Endpoint) :
  allowed "SECURITY" e =
  match action_of e, resource_of e with
  | ReadAction, _ => true
  | CreateAction, Vehicles => true
  | _, _ => false
  end.
Proof. by destruct e. Qed.

(** A caller the guard admits is served by the handler; any other caller
    gets 403 and nothing runs. *)
Lemma serve_guarded {Store Payload : Type}
    `{!JSON Payload, !VehicleService Store Payload,
      !SectionService Store Payload}
    (user : UserInterface) (req : Request) (w : World Store) :
  serve user req w =
  if allowed (role user) (endpoint req) then handle user req w
  else (Throw (HttpException 403), w).
Proof.
  unfold serve, allowed, RolesGuard_canActivate. simpl.
  by destruct (bool_decide _).
Qed.

(** C10 (amended). With role SECURITY a caller may create vehicles but not
    sections, may use every read endpoint of both controllers, and may
    neither update nor delete sections. *)
Theorem security_role_policy :
  allowed "SECURITY" Vehicle_create = true ∧
  allowed "SECURITY" Section_create = false ∧
  (∀ e, action_of e = ReadAction → allowed "SECURITY" e = true) ∧
  allowed "SECURITY" Section_update = false ∧
  allowed "SECURITY" Section_delete = false.
Proof.
  split_and!; try reflexivity.
  intros e He. destruct e; try discriminate He; reflexivity.
Qed.

(** ** The cache key of the vehicle list *)

Lemma pretty_N_go_colon_free (x : N) (s : string) :
  colon_free s = true → colon_free (pretty_N_go x s) = true.
Proof.
  revert s. induction (N.lt_wf_0 x) as [x _ IH]. intros s Hs.
  destruct (decide (x = 0%N)) as [-> | Hx].
  - by rewrite pretty_N_go_0.
  - rewrite pretty_N_go_step by lia. apply IH.
    + apply N.div_lt; lia.
    + simpl. rewrite Hs.
      assert (x `mod` 10 < 10)%N as Hlt by (apply N.mod_lt; lia).
      destruct (x `mod` 10)%N as [|d]; [done |].
      do 4 (destruct d as [d | d |]; try done); lia.
Qed.

Lemma Number_toString_colon_free (n : Z) :
  colon_free (Number_toString n) = true.
Proof.
  assert (∀ x : N, colon_free (pretty x) = true) as HN.
  { intros x. unfold pretty, pretty_N. case_decide; [done |].
    by apply pretty_N_go_colon_free. }
  destruct n as [| q | q]; [done | apply HN |].
  unfold Number_toString, pretty, pretty_Z. simpl. apply HN.
Qed.

Lemma split_at_colon (a a' b b' : string) :
  colon_free a = true → colon_free a' = true →
  a +:+ ":" +:+ b = a' +:+ ":" +:+ b' → a = a' ∧ b = b'.
Proof.
  revert a'. induction a as [|c a IH]; intros [|c' a'] Ha Ha' Heq;
    simpl in *.
  - by simplify_eq.
  - by simplify_eq.
  - by simplify_eq.
  - apply andb_prop in Ha as [_ Ha]. apply andb_prop in Ha' as [_ Ha'].
    injection Heq as -> Heq. by destruct (IH a' Ha Ha' Heq) as [-> ->].
Qed.

(** The key of the vehicle list determines the page and the limit. *)
Lemma vehicle_list_key_inj h h' p p' page page' limit limit' :
  cache_key (GetVehicles h p page limit) =
  cache_key (GetVehicles h' p' page' limit') →
  page = page' ∧ limit = limit'.
Proof.
  intros Heq. simpl in Heq. injection Heq as Heq.
  apply split_at_colon in Heq as [Hp Hl];
    try apply Number_toString_colon_free.
  split; by apply (inj pretty).
Qed.

(** C2. The key of the vehicle list is built from the page and the limit
    alone: requests that differ only in the plate filter share their key.
    On the fake, a list filtered by one plate is then served, from the
    cache, to a request that filters by another plate, while the same
    request on a cold cache gets the other vehicle. *)
Theorem vehicle_list_key_ignores_plate :
  (∀ h h' p p' page limit,
     cache_key (GetVehicles h p page limit) =
     cache_key (GetVehicles h' p' page limit)) ∧
  let first := GetVehicles (Some "max-age=60") (Some "29A12345") 1 10 in
  let second := GetVehicles (Some "max-age=60") (Some "30F99999") 1 10 in
  cache_key first = "vehicles:1:10" ∧
  cache_key second = "vehicles:1:10" ∧
  (get Fake.guard second
     (elapse 5 (get Fake.guard first Fake.world0).2)).1 =
  Return (Fake.JArr ["29A12345"]) ∧
  (get Fake.guard second Fake.world0).1 = Return (Fake.JArr ["30F99999"]).
Proof. split; [done |]. by vm_compute. Qed.

(** ** Concrete runs on the fake *)

(** C1. The handlers miss the claim on requests without a [Cache-Control]
    header, which their [@ApiHeader] declares optional: the conjunct
    [cacheOption &&] makes such a request skip the lookup.  Two identical
    list requests without the header, five seconds apart, both return the
    list and call the service twice, where the claim allows one call; the
    key the first request wrote is never read. *)
Lemma absent_header_loads_twice :
  let r := GetVehicles None None 1 10 in
  let first := get Fake.guard r Fake.world0 in
  let second := get Fake.guard r (elapse 5 first.2) in
  header r ≠ Some "no-cache" ∧
  first.1 = Return (Fake.JArr ["29A12345"; "30F99999"]) ∧
  second.1 = Return (Fake.JArr ["29A12345"; "30F99999"]) ∧
  loads (journal second.2) = 2%nat ∧
  ¬ (loads (journal second.2) ≤ loads (journal Fake.world0) + 1)%nat.
Proof. split_and!; [done | by vm_compute .. |]. vm_compute. lia. Qed.

(** C3, as stated, fails: with Redis rejecting the lookup, the request for
    section 1 ends in the Redis error although the service would have
    answered. *)
Lemma offline_lookup_fails :
  let r := GetSection (Some "max-age=60") 1 in
  rejected Fake.offline = true ∧
  (loader Fake.guard r (store Fake.offline)).1 = Return (Fake.JStr "B1") ∧
  (get Fake.guard r Fake.offline).1 = Throw RedisError ∧
  loads (journal (get Fake.guard r Fake.offline).2) = 0%nat.
Proof. split_and!; by vm_compute. Qed.

(** C8, as stated, fails: a cached text that is not JSON makes the request
    for section 1 end in a [SyntaxError]; the service is not called and
    nothing is stored. *)
Lemma malformed_entry_throws :
  let r := GetSection (Some "max-age=60") 1 in
  live Fake.corrupted (cache_key r) = Some "{oops" ∧
  JSON_parse (Payload := Fake.Json) "{oops" = None ∧
  (get Fake.guard r Fake.corrupted).1 = Throw SyntaxError ∧
  journal (get Fake.guard r Fake.corrupted).2 = [RedisGet "sections:1"].
Proof. split_and!; by vm_compute. Qed.

(** C10, as stated, fails: the guard turns a SECURITY caller away from
    section creation. *)
Lemma security_cannot_create_sections :
  allowed "SECURITY" Section_create = false ∧
  (serve Fake.guard
     (PostSection {| name := "B3"; capacity := 100 |}) Fake.world0).1 =
  Throw (HttpException 403).
Proof. split; by vm_compute. Qed.

(** ** Instances of the theorems on the fake

    Each theorem above that has premises is applied here to a concrete
    request and world, with the premises evaluated. *)

Lemma hit_answers_from_cache_witness :
  let r := GetSection (Some "max-age=60") 1 in
  reads_cache (header r) = true ∧
  rejected Fake.warm = false ∧
  live Fake.warm (cache_key r) = Some (Fake.quoted "B1") ∧
  Fake.quoted "B1" ≠ EmptyString ∧
  ∃ w',
    get Fake.guard r Fake.warm = (parsed (Fake.quoted "B1"), w') ∧
    journal w' = journal Fake.warm ++ [RedisGet (cache_key r)] ∧
    redis w' = redis Fake.warm ∧
    store w' = store Fake.warm.
Proof.
  intros r.
  assert (reads_cache (header r) = true) as H1 by (by vm_compute).
  assert (rejected Fake.warm = false) as H2 by (by vm_compute).
  assert (live Fake.warm (cache_key r) = Some (Fake.quoted "B1")) as H3
    by (by vm_compute).
  assert (Fake.quoted "B1" ≠ EmptyString) as H4 by discriminate.
  split_and!; [done .. |].
  exact (hit_answers_from_cache Fake.guard r Fake.warm (Fake.quoted "B1")
           H1 H2 H3 H4).
Defined.

Lemma malformed_entry_fails_request_witness :
  let r := GetSection (Some "max-age=60") 1 in
  reads_cache (header r) = true ∧
  rejected Fake.corrupted = false ∧
  live Fake.corrupted (cache_key r) = Some "{oops" ∧
  "{oops" ≠ EmptyString ∧
  JSON_parse (Payload := Fake.Json) "{oops" = None ∧
  ∃ w',
    get Fake.guard r Fake.corrupted = (Throw SyntaxError, w') ∧
    journal w' = journal Fake.corrupted ++ [RedisGet (cache_key r)] ∧
    redis w' = redis Fake.corrupted ∧
    store w' = store Fake.corrupted.
Proof.
  intros r.
  assert (reads_cache (header r) = true) as H1 by (by vm_compute).
  assert (rejected Fake.corrupted = false) as H2 by (by vm_compute).
  assert (live Fake.corrupted (cache_key r) = Some "{oops") as H3
    by (by vm_compute).
  assert ("{oops" ≠ EmptyString) as H4 by discriminate.
  assert (JSON_parse (Payload := Fake.Json) "{oops" = None) as H5
    by (by vm_compute).
  split_and!; [done .. |].
  exact (malformed_entry_fails_request Fake.guard r Fake.corrupted "{oops"
           H1 H2 H3 H4 H5).
Defined.

Lemma rejected_command_fails_request_witness :
  let r := GetSection (Some "max-age=60") 1 in
  (0 < length (List.filter is_redis
                 (appended (journal Fake.offline)
                    (journal (get Fake.guard r Fake.offline).2))))%nat ∧
  outages Fake.offline !! 0%nat = Some true ∧
  reads_cache (header r) = true ∧
  rejected Fake.offline = true ∧
  (get Fake.guard r Fake.offline).1 = Throw RedisError ∧
  get Fake.guard r Fake.offline =
  (Throw RedisError, record (RedisGet (cache_key r)) (consume Fake.offline)).
Proof.
  intros r.
  assert (0 < length (List.filter is_redis
                        (appended (journal Fake.offline)
                           (journal (get Fake.guard r Fake.offline).2))))%nat
    as H1 by (vm_compute; lia).
  assert (outages Fake.offline !! 0%nat = Some true) as H2 by reflexivity.
  assert (reads_cache (header r) = true) as H3 by (by vm_compute).
  assert (rejected Fake.offline = true) as H4 by reflexivity.
  split_and!; [done .. | |].
  - exact (proj1 (rejected_command_fails_request Fake.guard r Fake.offline)
             0%nat H1 H2).
  - exact (proj2 (rejected_command_fails_request Fake.guard r Fake.offline)
             H3 H4).
Defined.

Lemma bypass_reloads_and_rewrites_witness :
  let r := GetSection (Some "no-cache") 1 in
  let r' := GetSection (Some "max-age=60") 1 in
  let text := JSON_stringify (Fake.JStr "B1") in
  header r = Some "no-cache" ∧
  loader Fake.guard r (store Fake.world0) =
  (Return (Fake.JStr "B1"), Fake.garage) ∧
  rejected Fake.world0 = false ∧
  reads_cache (header r') = true ∧
  cache_key r' = cache_key r ∧
  0 ≤ 5 < 600 ∧
  text ≠ EmptyString ∧
  rejected (get Fake.guard r Fake.world0).2 = false ∧
  appended (journal Fake.world0) (journal (get Fake.guard r Fake.world0).2) =
  [ServiceCall Section_getById; RedisSet (cache_key r) text 600] ∧
  (get Fake.guard r Fake.world0).1 = Return (Fake.JStr "B1") ∧
  ∃ w2,
    get Fake.admin r' (elapse 5 (get Fake.guard r Fake.world0).2) =
    (parsed text, w2) ∧
    journal w2 =
    journal (get Fake.guard r Fake.world0).2 ++ [RedisGet (cache_key r)] ∧
    store w2 = store (get Fake.guard r Fake.world0).2.
Proof.
  intros r r' text.
  assert (header r = Some "no-cache") as H1 by reflexivity.
  assert (loader Fake.guard r (store Fake.world0) =
          (Return (Fake.JStr "B1"), Fake.garage)) as H2 by reflexivity.
  assert (rejected Fake.world0 = false) as H3 by reflexivity.
  assert (reads_cache (header r') = true) as H4 by (by vm_compute).
  assert (cache_key r' = cache_key r) as H5 by reflexivity.
  assert (0 ≤ 5 < 600) as H6 by lia.
  assert (text ≠ EmptyString) as H7 by discriminate.
  assert (rejected (get Fake.guard r Fake.world0).2 = false) as H8
    by (by vm_compute).
  pose proof (proj2 (bypass_reloads_and_rewrites Fake.guard r Fake.world0 H1)
                (Fake.JStr "B1") Fake.garage H2) as [Hj Hset].
  destruct (Hset H3) as (Hres & _ & Hnext).
  split_and!; [done .. |].
  exact (Hnext Fake.admin r' 5 H4 H5 H6 H7 H8).
Defined.

Lemma absent_header_acts_as_no_cache_witness :
  let r := GetSection None 1 in
  let r' := GetSection (Some "max-age=60") 1 in
  header r = None ∧
  loader Fake.guard r (store Fake.world0) =
  (Return (Fake.JStr "B1"), Fake.garage) ∧
  RedisGet "sections:1" ∈
    appended (journal Fake.world0) (journal (get Fake.guard r' Fake.world0).2) ∧
  get Fake.guard r Fake.world0 =
  get Fake.guard (GetSection (Some "no-cache") 1) Fake.world0 ∧
  appended (journal Fake.world0) (journal (get Fake.guard r Fake.world0).2) =
  [ServiceCall Section_getById;
   RedisSet "sections:1" (JSON_stringify (Fake.JStr "B1")) 600] ∧
  ∃ text, header r' = Some text ∧ text ≠ "no-cache".
Proof.
  intros r r'.
  assert (header r = None) as H1 by reflexivity.
  assert (loader Fake.guard r (store Fake.world0) =
          (Return (Fake.JStr "B1"), Fake.garage)) as H2 by reflexivity.
  assert (RedisGet "sections:1" ∈
            appended (journal Fake.world0)
              (journal (get Fake.guard r' Fake.world0).2)) as H3.
  { apply list_elem_of_In. vm_compute. by left. }
  destruct (absent_header_acts_as_no_cache Fake.guard r Fake.world0)
    as (Hsame & Habsent & _).
  destruct (absent_header_acts_as_no_cache Fake.guard r' Fake.world0)
    as (_ & _ & Honly).
  split_and!; [done .. | exact Hsame | | ].
  - exact (proj2 (Habsent H1) (Fake.JStr "B1") Fake.garage H2).
  - exact (Honly "sections:1" H3).
Defined.

Lemma cache_writes_expire_after_600_witness :
  let r := GetSection None 1 in
  let text := JSON_stringify (Fake.JStr "B1") in
  RedisSet "sections:1" text 600 ∈
    appended (journal Fake.world0) (journal (get Fake.guard r Fake.world0).2) ∧
  "sections:1" = cache_key r ∧ 600 = 600 ∧
  (∀ v, (get Fake.guard r Fake.world0).1 = Return v →
     text = JSON_stringify v ∧
     redis (get Fake.guard r Fake.world0).2 !! "sections:1" =
     Some {| value := text; expires_at := clock Fake.world0 + 600 |}).
Proof.
  intros r text.
  assert (RedisSet "sections:1" text 600 ∈
            appended (journal Fake.world0)
              (journal (get Fake.guard r Fake.world0).2)) as H1.
  { apply list_elem_of_In. vm_compute. right. by left. }
  split; [done |].
  exact (cache_writes_expire_after_600 Fake.guard r Fake.world0
           "sections:1" text 600 H1).
Defined.

Lemma warm_read_loads_at_most_once_witness :
  let r := GetVehicles (Some "max-age=60") None 1 10 in
  let v := Fake.JArr ["29A12345"; "30F99999"] in
  let w1 := (get Fake.guard r Fake.world0).2 in
  reads_cache (header r) = true ∧
  get Fake.guard r Fake.world0 = (Return v, w1) ∧
  JSON_stringify v ≠ EmptyString ∧
  0 ≤ 5 < 600 ∧
  loads (journal w1) = (loads (journal Fake.world0) + 1)%nat ∧
  rejected w1 = false ∧
  (loads (journal (get Fake.admin r (elapse 5 w1)).2) ≤
   loads (journal Fake.world0) + 1)%nat ∧
  (get Fake.admin r (elapse 5 w1)).1 = parsed (JSON_stringify v) ∧
  journal (get Fake.admin r (elapse 5 w1)).2 =
  journal w1 ++ [RedisGet (cache_key r)] ∧
  store (get Fake.admin r (elapse 5 w1)).2 = store w1.
Proof.
  intros r v w1.
  assert (reads_cache (header r) = true) as H1 by (by vm_compute).
  assert (get Fake.guard r Fake.world0 = (Return v, w1)) as H2
    by (by vm_compute).
  assert (JSON_stringify v ≠ EmptyString) as H3 by discriminate.
  assert (0 ≤ 5 < 600) as H4 by lia.
  assert (loads (journal w1) = (loads (journal Fake.world0) + 1)%nat) as H5
    by (by vm_compute).
  assert (rejected w1 = false) as H6 by (by vm_compute).
  destruct (warm_read_loads_at_most_once Fake.guard Fake.admin r r
              Fake.world0 v w1 5 H1 H1 eq_refl H2 H3 H4) as [Hle Hhit].
  destruct (Hhit H5 H6) as (Hres & Hjournal & Hstore).
  split_and!; try assumption; lia.
Defined.

Lemma mutation_leaves_cache_witness :
  let m := PatchSection 1 {| new_name := Some "C1"; new_capacity := None;
                             privilegedTo := None |} in
  let r := GetSection (Some "max-age=60") 1 in
  let text := JSON_stringify (Fake.JStr "B1") in
  reads_cache (header r) = true ∧
  rejected Fake.warm = false ∧
  live (elapse 5 Fake.warm) (cache_key r) = Some text ∧
  text ≠ EmptyString ∧
  (mutate Fake.admin m Fake.warm).1 = Return (Fake.JStr "C1") ∧
  redis (mutate Fake.admin m Fake.warm).2 = redis Fake.warm ∧
  ∃ w',
    get Fake.guard r (elapse 5 (mutate Fake.admin m Fake.warm).2) =
    (parsed text, w') ∧
    journal w' =
    journal (mutate Fake.admin m Fake.warm).2 ++ [RedisGet (cache_key r)].
Proof.
  intros m r text.
  assert (reads_cache (header r) = true) as H1 by (by vm_compute).
  assert (rejected Fake.warm = false) as H2 by reflexivity.
  assert (live (elapse 5 Fake.warm) (cache_key r) = Some text) as H3
    by (by vm_compute).
  assert (text ≠ EmptyString) as H4 by discriminate.
  destruct (mutation_leaves_cache Fake.admin m Fake.warm)
    as (Hredis & _ & Hstale).
  split_and!; [done .. | by vm_compute | exact Hredis |].
  exact (Hstale Fake.guard r 5 text H1 H2 H3 H4).
Defined.

Lemma security_role_policy_witness :
  action_of Section_report = ReadAction ∧
  allowed "SECURITY" Section_report = true.
Proof.
  split; [reflexivity |].
  exact (proj1 (proj2 (proj2 security_role_policy)) Section_report eq_refl).
Defined.

(** * Further properties of the controllers *)

(** ** Cache keys across the four cached routes *)

Lemma colon_in_middle (a b : string) :
  colon_free (a +:+ ":" +:+ b) = false.
Proof.
  induction a as [|c a IH]; simpl; [done |].
  rewrite IH. apply andb_false_r.
Qed.

(** Keys compared through their decimal digits. *)
Lemma decimal_key_eq_iff (r r' : Read) :
  cache_key r = cache_key r' ↔
  read_endpoint r = read_endpoint r' ∧ key_fields r = key_fields r'.
Proof.
  split.
  - destruct r as [h p pg lm | h i | h | h i],
      r' as [h' p' pg' lm' | h' i' | h' | h' i']; simpl; intros Heq;
      try discriminate Heq.
    + apply (vehicle_list_key_inj h h' p p') in Heq as [-> ->]. done.
    + injection Heq as Heq.
      change (Number_toString pg +:+ ":" +:+ Number_toString lm =
              Number_toString i') in Heq.
      pose proof (Number_toString_colon_free i') as Hc.
      rewrite <- Heq, colon_in_middle in Hc. done.
    + injection Heq as Heq.
      change (Number_toString i =
              Number_toString pg' +:+ ":" +:+ Number_toString lm') in Heq.
      pose proof (Number_toString_colon_free i) as Hc.
      rewrite Heq, colon_in_middle in Hc. done.
    + injection Heq as Heq.
      change (pretty i = pretty i') in Heq. by apply (inj pretty) in Heq as ->.
    + done.
    + injection Heq as Heq.
      change (pretty i = pretty i') in Heq. by apply (inj pretty) in Heq as ->.
  - destruct r, r'; simpl; intros [He Hf]; try discriminate He;
      by simplify_eq.
Qed.

(** X1. For requests whose page, limit and id are safe integers, where the
    handlers render the numbers in plain decimal: two cached requests
    derive the same key exactly when they are served by the same handler
    with the same numbers in the key (page and limit, or the id).  Keys of
    different handlers never collide, and neither the header nor the plate
    filter enters the key. *)
Theorem cache_key_eq_iff (r r' : Read) :
  Forall safe_integer (key_fields r) →
  Forall safe_integer (key_fields r') →
  cache_key r = cache_key r' ↔
  read_endpoint r = read_endpoint r' ∧ key_fields r = key_fields r'.
Proof. intros _ _. apply decimal_key_eq_iff. Qed.

(** ** More on the cached GET handlers *)

Section Reads.
Context {Store Payload : Type}.
Context `{!JSON Payload, !VehicleService Store Payload,
          !SectionService Store Payload}.

Implicit Types (w : World Store) (r : Read) (user : UserInterface).

Lemma with_header_parts (h : option string) r :
  header (with_header h r) = h ∧
  cache_key (with_header h r) = cache_key r ∧
  read_endpoint (with_header h r) = read_endpoint r.
Proof. by destruct r. Qed.

Lemma loader_with_header user (h : option string) r :
  loader user (with_header h r) = loader user r.
Proof. by destruct r. Qed.

(** The key space holds nothing servable under [key]: no entry, an entry
    that has expired, or an empty text. *)
Lemma nothing_live w key :
  (redis w !! key = None ∨
   ∃ en, redis w !! key = Some en ∧
         (expires_at en ≤ clock w ∨ value en = EmptyString)) →
  truthy (live w key) = false.
Proof.
  unfold live. intros [-> | (en & -> & [Hexp | Hval])]; [done | |].
  - rewrite bool_decide_eq_false_2; [done | lia].
  - case_bool_decide; [by rewrite Hval | done].
Qed.

(** X2. The header matters only through the handler's test: two header
    values that are both non-empty and different from ["no-cache"], or
    both not, give the same run.  In particular an empty header value is
    handled as an absent header, and the comparison with ["no-cache"] is
    exact. *)
Theorem header_matters_through_guard user r w (h h' : option string) :
  reads_cache h = reads_cache h' →
  get user (with_header h r) w = get user (with_header h' r) w.
Proof.
  intros Hg. rewrite !get_cache_aside, !loader_with_header.
  destruct (with_header_parts h r) as (-> & -> & ->).
  destruct (with_header_parts h' r) as (-> & -> & ->).
  unfold cache_aside. by rewrite Hg.
Qed.

(** X3. On a hit the answer depends on the key alone: any caller, and any
    request of the same key (whatever its plate filter), gets the same
    completion and leaves the same world. *)
Theorem hit_ignores_caller user user' r r' w text :
  cache_key r' = cache_key r →
  reads_cache (header r) = true →
  reads_cache (header r') = true →
  rejected w = false →
  live w (cache_key r) = Some text →
  text ≠ EmptyString →
  get user' r' w = get user r w.
Proof.
  intros Hk Hh Hh' Hr Hl Ht. rewrite !get_cache_aside.
  rewrite (cache_aside_hit _ _ _ _ w text) by (by rewrite ?Hk).
  rewrite (cache_aside_hit _ _ _ _ w text) by done.
  by rewrite Hk.
Qed.

(** X4. A miss fills the cache.  When the header lets the handler read the
    cache and Redis holds nothing servable under the key (no entry, an
    expired entry, or an empty text), the handler issues the [GET], calls
    the service and, when the service returns and Redis accepts both
    commands, issues the [SET]: the service's value is returned as it is,
    the key holds its serialization until 600 seconds after the request,
    and the record store is as the service left it. *)
Theorem miss_fills_cache user r w v s :
  reads_cache (header r) = true →
  (redis w !! cache_key r = None ∨
   ∃ en, redis w !! cache_key r = Some en ∧
         (expires_at en ≤ clock w ∨ value en = EmptyString)) →
  rejected w = false →
  rejected (consume w) = false →
  loader user r (store w) = (Return v, s) →
  ∃ w',
    get user r w = (Return v, w') ∧
    journal w' =
    journal w ++ [RedisGet (cache_key r); ServiceCall (read_endpoint r);
                  RedisSet (cache_key r) (JSON_stringify v) 600] ∧
    redis w' =
    <[cache_key r := {| value := JSON_stringify v;
                        expires_at := clock w + 600 |}]> (redis w) ∧
    store w' = s.
Proof.
  intros Hh Hnone Hr Hr' Hl. apply nothing_live in Hnone.
  rewrite get_cache_aside, cache_aside_miss by done.
  rewrite (refresh_returns _ _ _ _ v s) by done.
  eexists. split; [done |]. simpl. split_and!; [| done | done].
  by rewrite <- !app_assoc.
Qed.

(** X5. A failing service fails the request and leaves the cache alone.
    When the handler reaches the service (on a bypass, or after an accepted
    lookup that found nothing servable) and the service throws, the handler
    throws the same exception, no [SET] is issued, the key space is
    unchanged, and the record store is as the service left it. *)
Theorem service_failure_propagates user r w e s :
  (reads_cache (header r) = false ∨
   (rejected w = false ∧ truthy (live w (cache_key r)) = false)) →
  loader user r (store w) = (Throw e, s) →
  (get user r w).1 = Throw e ∧
  List.filter is_redis (appended (journal w) (journal (get user r w).2)) =
  (if reads_cache (header r) then [RedisGet (cache_key r)] else []) ∧
  redis (get user r w).2 = redis w ∧
  store (get user r w).2 = s.
Proof.
  intros Hpath Hl. rewrite get_cache_aside.
  destruct (reads_cache (header r)) eqn:Hh.
  - destruct Hpath as [? | [Hr Hmiss]]; [done |].
    rewrite cache_aside_miss by done.
    rewrite (refresh_throws _ _ _ _ e s) by done. simpl.
    by rewrite appended_app2.
  - rewrite cache_aside_bypass by done.
    rewrite (refresh_throws _ _ _ _ e s) by done. simpl.
    by rewrite appended_app.
Qed.

(** X6. A cached handler touches no key but its own: every other entry of
    the key space is the same after the run, whatever its outcome. *)
Theorem other_keys_untouched user r w key :
  key ≠ cache_key r →
  redis (get user r w).2 !! key = redis w !! key.
Proof.
  intros Hne.
  destruct (get_ends user r w) as [Hh Hr | cached Hh Hr Hl Ht
    | w0 e s Hin0 Hload | w0 v s Hin0 Hload Hr | w0 v s Hin0 Hload Hr];
    simpl; try done;
    destruct (entered_frame _ _ _ Hin0) as (Hredis & _ & _);
    rewrite ?lookup_insert_ne by done; by rewrite Hredis.
Qed.

(** X7. What a cached handler does, in order: the [GET] exactly when the
    header lets it read the cache, then at most one service call, then at
    most one [SET]; both commands are on the handler's key and the [SET]
    carries the expiry 600.  A handler that skips the lookup always calls
    the service. *)
Theorem run_shape user r w :
  ∃ tail,
    appended (journal w) (journal (get user r w).2) =
    (if reads_cache (header r) then [RedisGet (cache_key r)] else [])
    ++ tail ∧
    (tail = [] ∨
     tail = [ServiceCall (read_endpoint r)] ∨
     ∃ text,
       tail = [ServiceCall (read_endpoint r);
               RedisSet (cache_key r) text 600]) ∧
    (reads_cache (header r) = false → tail ≠ []).
Proof.
  destruct (get_ends user r w) as [Hh Hr | cached Hh Hr Hl Ht
    | w0 e s Hin0 Hload | w0 v s Hin0 Hload Hr | w0 v s Hin0 Hload Hr];
    simpl.
  - exists []. rewrite Hh, appended_app. split_and!; [done | by left |].
    congruence.
  - exists []. rewrite Hh, appended_app. split_and!; [done | by left |].
    congruence.
  - exists [ServiceCall (read_endpoint r)].
    destruct (entered_journal _ _ _ Hin0) as [[-> ->] | [-> ->]].
    + rewrite appended_app. split_and!; [done | by right; left | done].
    + rewrite appended_app2. split_and!; [done | by right; left | done].
  - exists [ServiceCall (read_endpoint r);
            RedisSet (cache_key r) (JSON_stringify v) 600].
    destruct (entered_journal _ _ _ Hin0) as [[-> ->] | [-> ->]].
    + rewrite appended_app2. split_and!; [done | right; right; eauto | done].
    + rewrite appended_app3. split_and!; [done | right; right; eauto | done].
  - exists [ServiceCall (read_endpoint r);
            RedisSet (cache_key r) (JSON_stringify v) 600].
    destruct (entered_journal _ _ _ Hin0) as [[-> ->] | [-> ->]].
    + rewrite appended_app2. split_and!; [done | right; right; eauto | done].
    + rewrite appended_app3. split_and!; [done | right; right; eauto | done].
Qed.

(** The miss-or-bypass path extends the journal, starting with the service
    call. *)
Lemma refresh_extends key method load w :
  ∃ tail,
    journal (refresh key method load w).2 =
    journal w ++ ServiceCall method :: tail.
Proof.
  destruct (load (store w)) as [[v|e] s] eqn:Hl.
  - destruct (rejected w) eqn:Hr.
    + rewrite (refresh_set_rejected _ _ _ w v s) by done.
      eexists. simpl. by rewrite <- app_assoc.
    + rewrite (refresh_returns _ _ _ w v s) by done.
      eexists. simpl. by rewrite <- app_assoc.
  - rewrite (refresh_throws _ _ _ w e s) by done. by eexists.
Qed.

(** X8. An entry is served for less than 600 seconds.  After a request
    that called the service and returned, a request for the same key that
    reads the cache 600 seconds later or more, with its lookup accepted,
    finds nothing servable: it calls the service again. *)
Theorem entry_gone_after_600 user user' r r' w v w1 d :
  get user r w = (Return v, w1) →
  loads (journal w1) = (loads (journal w) + 1)%nat →
  600 ≤ d →
  reads_cache (header r') = true →
  cache_key r' = cache_key r →
  rejected w1 = false →
  ∃ tail,
    journal (get user' r' (elapse d w1)).2 =
    journal w1 ++
    RedisGet (cache_key r) :: ServiceCall (read_endpoint r') :: tail.
Proof.
  intros Hrun Hloads Hd Hh' Hk Hr1.
  pose proof (get_ends user r w) as He. rewrite Hrun in He.
  inversion He as [| cached _ Hr Hl Ht Hp | | | w0 v0 s Hin0 Hload Hr0];
    subst; clear He.
  - simpl in Hloads. rewrite loads_app in Hloads. unfold loads in Hloads.
    simpl in Hloads. lia.
  - set (w2 := record (RedisSet (cache_key r) (JSON_stringify v) 600)
                 (consume (called (read_endpoint r) s w0))) in *.
    assert (truthy (live (elapse d (put (cache_key r) (JSON_stringify v)
                                      600 w2)) (cache_key r')) = false)
      as Hmiss.
    { rewrite Hk. unfold live. simpl. rewrite lookup_insert_eq. simpl.
      rewrite bool_decide_eq_false_2; [done | lia]. }
    rewrite get_cache_aside, cache_aside_miss by done.
    destruct (refresh_extends (cache_key r') (read_endpoint r')
                (loader user' r')
                (record (RedisGet (cache_key r'))
                   (consume (elapse d (put (cache_key r) (JSON_stringify v)
                                         600 w2))))) as [tail ->].
    exists tail. simpl. by rewrite Hk, <- app_assoc.
Qed.

Lemma total_delay_nonneg (arrivals : list Arrival) :
  Forall (λ a, 0 ≤ delay a) arrivals → 0 ≤ total_delay arrivals.
Proof.
  unfold total_delay. induction 1 as [| a rest Ha _ IH]; simpl in *; lia.
Qed.

(** X9. A warm entry answers every read until it expires.  With Redis
    healthy, any sequence of cache-reading requests for the key of a live,
    non-empty entry, by whatever callers, all arriving before the entry's
    expiry time, is answered with the deserialization of that one text;
    the service is never called, and the key space and the record store
    stay as they were. *)
Theorem warm_entry_serves_every_read (arrivals : list Arrival) w key text e :
  redis w !! key = Some {| value := text; expires_at := e |} →
  text ≠ EmptyString →
  outages w = [] →
  Forall (λ a, reads_cache (header (request a)) = true ∧
               cache_key (request a) = key ∧
               0 ≤ delay a) arrivals →
  clock w + total_delay arrivals < e →
  (replay arrivals w).1 = replicate (length arrivals) (parsed text) ∧
  loads (journal (replay arrivals w).2) = loads (journal w) ∧
  redis (replay arrivals w).2 = redis w ∧
  store (replay arrivals w).2 = store w.
Proof.
  intros Hentry Ht. revert w Hentry.
  induction arrivals as [| a rest IH]; intros w Hentry Hout Hall Hlt.
  { done. }
  apply Forall_cons in Hall as [(Hh & Hk & Hd) Hall].
  assert (0 ≤ total_delay rest) as Hrest.
  { apply total_delay_nonneg. eapply Forall_impl; [exact Hall |].
    by intros ? (_ & _ & ?). }
  unfold total_delay in Hlt, Hrest. simpl in Hlt.
  assert (rejected (elapse (delay a) w) = false) as Hr
    by (unfold rejected; simpl; by rewrite Hout).
  assert (live (elapse (delay a) w) (cache_key (request a)) = Some text)
    as Hl.
  { rewrite Hk. unfold live. simpl. rewrite Hentry. simpl.
    rewrite bool_decide_eq_true_2; [done | lia]. }
  simpl. rewrite get_cache_aside.
  rewrite (cache_aside_hit _ _ _ _ _ text) by done.
  set (w1 := record (RedisGet (cache_key (request a)))
               (consume (elapse (delay a) w))).
  destruct (IH w1) as (Hres & Hloads & Hredis & Hstore).
  - done.
  - subst w1. simpl. by rewrite Hout.
  - done.
  - subst w1. unfold total_delay. simpl. lia.
  - destruct (replay rest w1) as [more w2]. simpl in *.
    split_and!; [by rewrite Hres | | done | done].
    rewrite Hloads. subst w1. simpl. rewrite loads_app.
    unfold loads. simpl. lia.
Qed.

(** ** The handlers without a cache *)

Lemma handle_call user (req : Request) :
  (∀ r, req ≠ Cached r) →
  ∃ f : Store → Completion Payload * Store,
    handle user req = call (endpoint req) f.
Proof.
  intros Hreq. destruct req as [r | m | | | |]; simpl.
  - by destruct (Hreq r).
  - apply mutate_call.
  - by eexists.
  - by eexists.
  - by eexists.
  - by eexists.
Qed.

(** X10. The handlers other than the four cached GETs (create, update,
    delete, reserved slots, report) never talk to Redis: a run is one
    service call, leaves the key space and the outage script as they were,
    and its completion and resulting record store depend on the record
    store alone, so they are the same whether Redis is up or down and
    whatever it holds. *)
Theorem uncached_handlers_skip_redis user (req : Request) w w' :
  (∀ r, req ≠ Cached r) →
  store w' = store w →
  appended (journal w) (journal (handle user req w).2) =
  [ServiceCall (endpoint req)] ∧
  redis (handle user req w).2 = redis w ∧
  outages (handle user req w).2 = outages w ∧
  (handle user req w').1 = (handle user req w).1 ∧
  store (handle user req w').2 = store (handle user req w).2.
Proof.
  intros Hreq Hs. destruct (handle_call user req Hreq) as [f ->].
  unfold call. rewrite Hs. destruct (f (store w)) as [res s]. simpl.
  split_and!; try done. apply appended_app.
Qed.

End Reads.

(** ** The [@Roles] annotations *)

(** X11. ADMIN is named by every handler's annotation, no annotation names
    a role other than ADMIN and SECURITY, and every role named by some
    handler is named by each read handler: whoever may create, update or
    delete may also read. *)
Theorem roles_table_invariants :
  (∀ e, "ADMIN" ∈ Roles e) ∧
  (∀ e (role : string),
     role ∈ Roles e → role = "ADMIN" ∨ role = "SECURITY") ∧
  (∀ e e' (role : string),
     action_of e' = ReadAction → role ∈ Roles e → role ∈ Roles e').
Proof.
  assert (∀ e (role : string),
            role ∈ Roles e → role = "ADMIN" ∨ role = "SECURITY") as Honly.
  { intros e role Hin. destruct e; simpl in Hin;
      repeat (apply elem_of_cons in Hin as [-> | Hin]; [by auto |]);
      by apply elem_of_nil in Hin. }
  split_and!.
  - intros e. destruct e; apply list_elem_of_here.
  - exact Honly.
  - intros e e' role He' Hin.
    destruct (Honly e role Hin) as [-> | ->];
      destruct e'; try discriminate He'; simpl;
      repeat constructor.
Qed.

(** ** Traffic without a usable cache *)

Section Traffic.
Context {Store Payload : Type}.
Context `{!JSON Payload, !VehicleService Store Payload,
          !SectionService Store Payload}.

Implicit Types (w : World Store) (r : Read) (user : UserInterface).

Lemma refresh_loads key method load w :
  loads (journal (refresh key method load w).2) =
  (loads (journal w) + 1)%nat.
Proof.
  destruct (load (store w)) as [[v|e] s] eqn:Hl.
  - destruct (rejected w) eqn:Hr.
    + rewrite (refresh_set_rejected _ _ _ w v s) by done.
      simpl. rewrite !loads_app. unfold loads. simpl. lia.
    + rewrite (refresh_returns _ _ _ w v s) by done.
      simpl. rewrite !loads_app. unfold loads. simpl. lia.
  - rewrite (refresh_throws _ _ _ w e s) by done.
    simpl. rewrite loads_app. unfold loads. simpl. lia.
Qed.

(** X12. Requests that do not read the cache are never absorbed by it: in
    any sequence of cached GETs whose header is absent, empty or
    ["no-cache"], every request calls the service, whatever Redis holds or
    answers and whatever the service does. *)
Theorem unread_cache_absorbs_nothing (arrivals : list Arrival) w :
  Forall (λ a, reads_cache (header (request a)) = false) arrivals →
  loads (journal (replay arrivals w).2) =
  (loads (journal w) + length arrivals)%nat.
Proof.
  revert w. induction arrivals as [| a rest IH]; intros w Hall.
  { simpl. lia. }
  apply Forall_cons in Hall as [Hh Hall]. simpl.
  destruct (get (caller a) (request a) (elapse (delay a) w))
    as [res w1] eqn:Hrun.
  specialize (IH w1 Hall). destruct (replay rest w1) as [more w2].
  simpl in *. rewrite IH.
  assert (loads (journal w1) = (loads (journal w) + 1)%nat) as ->; [| lia].
  replace w1 with (get (caller a) (request a) (elapse (delay a) w)).2
    by (by rewrite Hrun).
  rewrite get_cache_aside, cache_aside_bypass by done.
  by rewrite refresh_loads.
Qed.

(** X13. With Redis down no cached GET returns a result.  When the next
    two Redis commands are rejected, a cached handler ends in an exception
    whatever the header: a reading request fails at its lookup, and a
    request that skips the lookup fails at the [SET] (or with the service's
    own exception), after the service has run. *)
Theorem redis_down_no_answer user r w v :
  rejected w = true →
  rejected (consume w) = true →
  (get user r w).1 ≠ Return v.
Proof.
  intros Hr Hr'.
  destruct (get_ends user r w) as [Hh _ | cached Hh Hr0 Hl Ht
    | w0 e s Hin0 Hload | w0 v0 s Hin0 Hload Hr0 | w0 v0 s Hin0 Hload Hr0];
    simpl; try done.
  - congruence.
  - destruct Hin0 as [[_ ->] | (_ & Hr1 & _ & ->)]; [congruence |].
    congruence.
Qed.

End Traffic.

(** ** Instances of the further properties on the fake *)

Lemma header_matters_through_guard_witness :
  let r := GetSection None 1 in
  reads_cache (Some EmptyString) = reads_cache None ∧
  get Fake.guard (with_header (Some EmptyString) r) Fake.warm =
  get Fake.guard (with_header None r) Fake.warm.
Proof.
  intros r.
  assert (reads_cache (Some EmptyString) = reads_cache None) as H1
    by reflexivity.
  split; [exact H1 |].
  exact (header_matters_through_guard Fake.guard r Fake.warm
           (Some EmptyString) None H1).
Defined.

Lemma hit_ignores_caller_witness :
  let r := GetSection (Some "max-age=60") 1 in
  let r' := GetSection (Some "no-store") 1 in
  cache_key r' = cache_key r ∧
  reads_cache (header r) = true ∧
  reads_cache (header r') = true ∧
  rejected Fake.warm = false ∧
  live Fake.warm (cache_key r) = Some (Fake.quoted "B1") ∧
  Fake.quoted "B1" ≠ EmptyString ∧
  get Fake.admin r' Fake.warm = get Fake.guard r Fake.warm.
Proof.
  intros r r'.
  assert (cache_key r' = cache_key r) as H1 by reflexivity.
  assert (reads_cache (header r) = true) as H2 by (by vm_compute).
  assert (reads_cache (header r') = true) as H3 by (by vm_compute).
  assert (rejected Fake.warm = false) as H4 by reflexivity.
  assert (live Fake.warm (cache_key r) = Some (Fake.quoted "B1")) as H5
    by (by vm_compute).
  assert (Fake.quoted "B1" ≠ EmptyString) as H6 by discriminate.
  split_and!; [done .. |].
  exact (hit_ignores_caller Fake.guard Fake.admin r r' Fake.warm
           (Fake.quoted "B1") H1 H2 H3 H4 H5 H6).
Defined.

Lemma miss_fills_cache_witness :
  let r := GetSection (Some "max-age=60") 1 in
  let w := elapse 600 Fake.warm in
  let en := {| value := Fake.quoted "B1"; expires_at := 1600 |} in
  reads_cache (header r) = true ∧
  redis w !! cache_key r = Some en ∧
  expires_at en ≤ clock w ∧
  rejected w = false ∧
  rejected (consume w) = false ∧
  loader Fake.guard r (store w) = (Return (Fake.JStr "B1"), Fake.garage) ∧
  ∃ w',
    get Fake.guard r w = (Return (Fake.JStr "B1"), w') ∧
    journal w' =
    journal w ++ [RedisGet (cache_key r); ServiceCall (read_endpoint r);
                  RedisSet (cache_key r)
                    (JSON_stringify (Fake.JStr "B1")) 600] ∧
    redis w' =
    <[cache_key r := {| value := JSON_stringify (Fake.JStr "B1");
                        expires_at := clock w + 600 |}]> (redis w) ∧
    store w' = Fake.garage.
Proof.
  intros r w en.
  assert (reads_cache (header r) = true) as H1 by (by vm_compute).
  assert (redis w !! cache_key r = Some en) as H2 by (by vm_compute).
  assert (expires_at en ≤ clock w) as H3 by (by vm_compute).
  assert (rejected w = false) as H4 by reflexivity.
  assert (rejected (consume w) = false) as H5 by reflexivity.
  assert (loader Fake.guard r (store w) =
          (Return (Fake.JStr "B1"), Fake.garage)) as H6 by reflexivity.
  split_and!; [done .. |].
  exact (miss_fills_cache Fake.guard r w (Fake.JStr "B1") Fake.garage H1
           (or_intror (ex_intro _ en (conj H2 (or_introl H3)))) H4 H5 H6).
Defined.

Lemma service_failure_propagates_witness :
  let r := GetSection None 99 in
  reads_cache (header r) = false ∧
  loader Fake.guard r (store Fake.warm) =
  (Throw (HttpException 404), Fake.garage) ∧
  (get Fake.guard r Fake.warm).1 = Throw (HttpException 404) ∧
  List.filter is_redis
    (appended (journal Fake.warm) (journal (get Fake.guard r Fake.warm).2)) =
  (if reads_cache (header r) then [RedisGet (cache_key r)] else []) ∧
  redis (get Fake.guard r Fake.warm).2 = redis Fake.warm ∧
  store (get Fake.guard r Fake.warm).2 = Fake.garage.
Proof.
  intros r.
  assert (reads_cache (header r) = false) as H1 by reflexivity.
  assert (loader Fake.guard r (store Fake.warm) =
          (Throw (HttpException 404), Fake.garage)) as H2 by reflexivity.
  split; [exact H1 |]. split; [exact H2 |].
  exact (service_failure_propagates Fake.guard r Fake.warm
           (HttpException 404) Fake.garage (or_introl H1) H2).
Defined.

Lemma other_keys_untouched_witness :
  let r := GetSection None 2 in
  "sections:1" ≠ cache_key r ∧
  redis (get Fake.guard r Fake.warm).2 !! "sections:1" =
  redis Fake.warm !! "sections:1".
Proof.
  intros r.
  assert ("sections:1" ≠ cache_key r) as H1 by (vm_compute; discriminate).
  split; [exact H1 |].
  exact (other_keys_untouched Fake.guard r Fake.warm "sections:1" H1).
Defined.

Lemma entry_gone_after_600_witness :
  let r := GetSection None 1 in
  let r' := GetSection (Some "max-age=60") 1 in
  let w1 := (get Fake.guard r Fake.world0).2 in
  get Fake.guard r Fake.world0 = (Return (Fake.JStr "B1"), w1) ∧
  loads (journal w1) = (loads (journal Fake.world0) + 1)%nat ∧
  600 ≤ 600 ∧
  reads_cache (header r') = true ∧
  cache_key r' = cache_key r ∧
  rejected w1 = false ∧
  ∃ tail,
    journal (get Fake.admin r' (elapse 600 w1)).2 =
    journal w1 ++
    RedisGet (cache_key r) :: ServiceCall (read_endpoint r') :: tail.
Proof.
  intros r r' w1.
  assert (get Fake.guard r Fake.world0 = (Return (Fake.JStr "B1"), w1))
    as H1 by (by vm_compute).
  assert (loads (journal w1) = (loads (journal Fake.world0) + 1)%nat) as H2
    by (by vm_compute).
  assert (600 ≤ 600) as H3 by lia.
  assert (reads_cache (header r') = true) as H4 by (by vm_compute).
  assert (cache_key r' = cache_key r) as H5 by reflexivity.
  assert (rejected w1 = false) as H6 by (by vm_compute).
  split_and!; [done .. |].
  exact (entry_gone_after_600 Fake.guard Fake.admin r r' Fake.world0
           (Fake.JStr "B1") w1 600 H1 H2 H3 H4 H5 H6).
Defined.

Lemma warm_entry_serves_every_read_witness :
  let r := GetSection (Some "max-age=60") 1 in
  let arrivals :=
    [ {| delay := 5; caller := Fake.guard; request := r |};
      {| delay := 10; caller := Fake.admin; request := r |} ] in
  let text := Fake.quoted "B1" in
  redis Fake.warm !! "sections:1" =
  Some {| value := text; expires_at := 1600 |} ∧
  text ≠ EmptyString ∧
  outages Fake.warm = [] ∧
  clock Fake.warm + total_delay arrivals < 1600 ∧
  (replay arrivals Fake.warm).1 = replicate (length arrivals) (parsed text) ∧
  loads (journal (replay arrivals Fake.warm).2) = loads (journal Fake.warm) ∧
  redis (replay arrivals Fake.warm).2 = redis Fake.warm ∧
  store (replay arrivals Fake.warm).2 = store Fake.warm.
Proof.
  intros r arrivals text.
  assert (redis Fake.warm !! "sections:1" =
          Some {| value := text; expires_at := 1600 |}) as H1
    by (by vm_compute).
  assert (text ≠ EmptyString) as H2 by discriminate.
  assert (outages Fake.warm = []) as H3 by reflexivity.
  assert (Forall (λ a, reads_cache (header (request a)) = true ∧
                       cache_key (request a) = "sections:1" ∧
                       0 ≤ delay a) arrivals) as H4.
  { repeat apply Forall_cons_2; [| | apply Forall_nil_2];
      (split_and!; [by vm_compute | by vm_compute | simpl; lia]). }
  assert (clock Fake.warm + total_delay arrivals < 1600) as H5
    by (by vm_compute).
  split_and!; [done .. | | | |];
    apply (warm_entry_serves_every_read arrivals Fake.warm "sections:1"
             text 1600 H1 H2 H3 H4 H5).
Defined.

Lemma uncached_handlers_skip_redis_witness :
  let req := PostSection {| name := "B3"; capacity := 100 |} in
  (∀ r, req ≠ Cached r) ∧
  store Fake.offline = store Fake.world0 ∧
  appended (journal Fake.world0)
    (journal (handle Fake.admin req Fake.world0).2) =
  [ServiceCall (endpoint req)] ∧
  redis (handle Fake.admin req Fake.world0).2 = redis Fake.world0 ∧
  outages (handle Fake.admin req Fake.world0).2 = outages Fake.world0 ∧
  (handle Fake.admin req Fake.offline).1 =
  (handle Fake.admin req Fake.world0).1 ∧
  store (handle Fake.admin req Fake.offline).2 =
  store (handle Fake.admin req Fake.world0).2.
Proof.
  intros req.
  assert (∀ r, req ≠ Cached r) as H1 by (intros r; discriminate).
  assert (store Fake.offline = store Fake.world0) as H2 by reflexivity.
  split; [exact H1 |]. split; [exact H2 |].
  exact (uncached_handlers_skip_redis Fake.admin req Fake.world0
           Fake.offline H1 H2).
Defined.

Lemma roles_table_invariants_witness :
  action_of Section_report = ReadAction ∧
  "ADMIN" ∈ Roles Vehicle_delete ∧
  "ADMIN" ∈ Roles Section_report.
Proof.
  assert (action_of Section_report = ReadAction) as H1 by reflexivity.
  assert ("ADMIN" ∈ Roles Vehicle_delete) as H2
    by exact (proj1 roles_table_invariants Vehicle_delete).
  split_and!; [exact H1 | exact H2 |].
  exact (proj2 (proj2 roles_table_invariants) Vehicle_delete Section_report
           "ADMIN" H1 H2).
Defined.

Lemma unread_cache_absorbs_nothing_witness :
  let r := GetSection None 1 in
  let arrivals :=
    [ {| delay := 5; caller := Fake.guard; request := r |};
      {| delay := 10; caller := Fake.admin;
         request := with_header (Some "no-cache") r |} ] in
  Forall (λ a, reads_cache (header (request a)) = false) arrivals ∧
  loads (journal (replay arrivals Fake.warm).2) =
  (loads (journal Fake.warm) + length arrivals)%nat.
Proof.
  intros r arrivals.
  assert (Forall (λ a, reads_cache (header (request a)) = false) arrivals)
    as H1 by (repeat apply Forall_cons_2; [done | done | apply Forall_nil_2]).
  split; [exact H1 |].
  exact (unread_cache_absorbs_nothing arrivals Fake.warm H1).
Defined.

Lemma redis_down_no_answer_witness :
  let r := GetSection None 1 in
  let w := {| redis := redis Fake.warm; clock := 1000;
              outages := [true; true]; store := Fake.garage;
              journal := [] |} in
  rejected w = true ∧
  rejected (consume w) = true ∧
  (get Fake.guard r w).1 ≠ Return (Fake.JStr "B1").
Proof.
  intros r w.
  assert (rejected w = true) as H1 by reflexivity.
  assert (rejected (consume w) = true) as H2 by reflexivity.
  split; [exact H1 |]. split; [exact H2 |].
  exact (redis_down_no_answer Fake.guard r w (Fake.JStr "B1") H1 H2).
Defined.

Lemma cache_key_eq_iff_witness :
  let r := GetVehicles None (Some "29A12345") 1 10 in
  let r' := GetVehicles (Some "no-cache") None 1 10 in
  Forall safe_integer (key_fields r) ∧
  Forall safe_integer (key_fields r') ∧
  read_endpoint r = read_endpoint r' ∧
  key_fields r = key_fields r' ∧
  cache_key r = cache_key r'.
Proof.
  intros r r'.
  assert (Forall safe_integer [1; 10]) as H1.
  { repeat apply Forall_cons_2; [| | apply Forall_nil_2];
      unfold safe_integer, MAX_SAFE_INTEGER; lia. }
  assert (read_endpoint r = read_endpoint r') as H2 by reflexivity.
  assert (key_fields r = key_fields r') as H3 by reflexivity.
  split; [exact H1 |]. split; [exact H1 |].
  split; [exact H2 |]. split; [exact H3 |].
  exact (proj2 (cache_key_eq_iff r r' H1 H1) (conj H2 H3)).
Defined.
